(** * Camera controller and render-resource readiness of the particle renderer

    A shallow embedding of [renderer.cpp] (class [Renderer]) and the
    properties of its camera controller, readiness predicates, frame
    orchestration and particle stream.

    Modelling conventions.
    - A C++ [float] is read as a real number ([R]): rounding, infinities
      and NaN are not modelled.  Division by zero follows [Rinv_0].
    - GLM is an external library.  Its vector and quaternion functions are
      written out from their GLM definitions.  The renderer hands GLM its
      field of view in degrees ([_fieldOfView = 45.f; // in degrees]) and
      does not define [GLM_FORCE_RADIANS]: it is written against a GLM
      before 0.9.6, whose [angleAxis] takes its angle in degrees and
      converts it with [glm::radians].  Matrix constructors stay
      uninterpreted.
    - A pointer is an [option]; [None] is [nullptr].  GL object names
      ([GLuint]) are integers, [0] being the reserved "no object" name.
    - The one class [Renderer] is grouped into four records (camera, ground,
      skybox, particles) that follow the blocks of fields in [renderer.h]. *)

From Stdlib Require Import Reals Lra Psatz ZArith Lia List Bool String.
Import ListNotations.

Local Open Scope R_scope.

(** ** GLM value types *)

Record vec2 := mkvec2 { v2x : R; v2y : R }.
Record vec3 := mkvec3 { v3x : R; v3y : R; v3z : R }.
Record quat := mkquat { qw : R; qx : R; qy : R; qz : R }.
Record ivec2 := mkivec2 { iv2x : Z; iv2y : Z }.

(** [glm::mat4] values are only ever built, stored and handed to shaders by
    the renderer; they are kept as the expression that built them. *)
Inductive mat4 : Type :=
| mat4_default
| glm_lookAt (eye center up : vec3)
| glm_perspectiveFov (fov width height zNear zFar : R)
| mat4_mul (a b : mat4).

(** Comparisons of floats, as booleans. *)
Definition Rlt_b (a b : R) : bool := if Rlt_dec a b then true else false.
Definition Rgt_b (a b : R) : bool := Rlt_b b a.
Definition Req_b (a b : R) : bool := if Req_dec_T a b then true else false.

Module glm.

Definition pi : R := PI.

(** [glm::min(x, y)] is [(y < x) ? y : x]; [glm::max(x, y)] is
    [(x < y) ? y : x]. *)
Definition min (a b : R) : R := if Rlt_dec b a then b else a.
Definition max (a b : R) : R := if Rlt_dec a b then b else a.

Definition min2 (a b : vec2) : vec2 :=
  mkvec2 (min (v2x a) (v2x b)) (min (v2y a) (v2y b)).
Definition max2 (a b : vec2) : vec2 :=
  mkvec2 (max (v2x a) (v2x b)) (max (v2y a) (v2y b)).

Definition asin2 (a : vec2) : vec2 := mkvec2 (asin (v2x a)) (asin (v2y a)).

Definition sub2 (a b : vec2) : vec2 :=
  mkvec2 (v2x a - v2x b) (v2y a - v2y b).
Definition scale2 (a : vec2) (k : R) : vec2 :=
  mkvec2 (v2x a * k) (v2y a * k).
Definition splat2 (k : R) : vec2 := mkvec2 k k.

(** [operator==] on [vec2]: componentwise. *)
Definition eq2 (a b : vec2) : bool :=
  Req_b (v2x a) (v2x b) && Req_b (v2y a) (v2y b).

Definition splat3 (k : R) : vec3 := mkvec3 k k k.
Definition sub3 (a b : vec3) : vec3 :=
  mkvec3 (v3x a - v3x b) (v3y a - v3y b) (v3z a - v3z b).
Definition add3 (a b : vec3) : vec3 :=
  mkvec3 (v3x a + v3x b) (v3y a + v3y b) (v3z a + v3z b).
Definition scale3 (k : R) (a : vec3) : vec3 :=
  mkvec3 (k * v3x a) (k * v3y a) (k * v3z a).

Definition dot (a b : vec3) : R :=
  v3x a * v3x b + v3y a * v3y b + v3z a * v3z b.

Definition cross (a b : vec3) : vec3 :=
  mkvec3 (v3y a * v3z b - v3z a * v3y b)
         (v3z a * v3x b - v3x a * v3z b)
         (v3x a * v3y b - v3y a * v3x b).

Definition length (a : vec3) : R := sqrt (dot a a).

Definition inversesqrt (a : R) : R := 1 / sqrt a.

(** [glm::normalize(v)] is [v * inversesqrt(dot(v, v))]. *)
Definition normalize (a : vec3) : vec3 := scale3 (inversesqrt (dot a a)) a.

(** [glm::radians(degrees)] is [degrees * (pi / 180)]. *)
Definition radians (degrees : R) : R := degrees * (pi / 180).

(** [glm::angleAxis(angle, axis)], the angle in degrees:
    [a = radians(angle); s = sin(a * 0.5); quat(cos(a * 0.5), axis * s)].
    The axis is used as given. *)
Definition angleAxis (angle : R) (v : vec3) : quat :=
  let a := radians angle in
  let s := sin (a * (1/2)) in
  mkquat (cos (a * (1/2))) (v3x v * s) (v3y v * s) (v3z v * s).

(** [operator*(quat, quat)]. *)
Definition qmul (p q : quat) : quat :=
  mkquat (qw p * qw q - qx p * qx q - qy p * qy q - qz p * qz q)
         (qw p * qx q + qx p * qw q + qy p * qz q - qz p * qy q)
         (qw p * qy q + qy p * qw q + qz p * qx q - qx p * qz q)
         (qw p * qz q + qz p * qw q + qx p * qy q - qy p * qx q).

(** [operator*(quat, vec3)]:
    [uv = cross(q.xyz, v); uuv = cross(q.xyz, uv);
     v + ((uv * q.w) + uuv) * 2]. *)
Definition qrot (q : quat) (v : vec3) : vec3 :=
  let QuatVector := mkvec3 (qx q) (qy q) (qz q) in
  let uv := cross QuatVector v in
  let uuv := cross QuatVector uv in
  add3 v (scale3 2 (add3 (scale3 (qw q) uv) uuv)).

End glm.

(** ** Constants of the anonymous namespace of [renderer.cpp] *)

Definition _skyboxSize : R := 5.
Definition _rotationalFactor : R := 60.
Definition _minimumHeight : R := 1/10.
Definition _minimumDistance : R := 25/100.
Definition _maximumDistance : R := _skyboxSize - 1/10.
Definition _minimumTilt : R := 1/10.
Definition _maximumTilt : R := glm.pi - _minimumTilt.

Definition _defaultPosition : vec3 := mkvec3 (-1) 0 1.
Definition _defaultFocus : vec3 := glm.splat3 0.
Definition _defaultUp : vec3 := mkvec3 0 0 1.
Definition _fieldOfView : R := 45.
Definition _nearPlane : R := 1/10.
Definition _farPlane : R := 500.
Definition _defaultLightPosition : vec3 := mkvec3 0 2 10.

(** ** Camera state

    The camera fields of [Renderer], plus the widget size that
    [QGLWidget::size()] reports. *)

Record Camera := mkCamera {
  _oldMousePosition : vec2;
  _limitCameraPosition : bool;
  _position : vec3;
  _focus : vec3;
  _upVector : vec3;
  _viewProjectionMatrix : mat4;
  canvasSize : ivec2
}.

Definition set_oldMousePosition (m : vec2) (c : Camera) : Camera :=
  mkCamera m (_limitCameraPosition c) (_position c) (_focus c) (_upVector c)
           (_viewProjectionMatrix c) (canvasSize c).

Definition set_limitCameraPosition (b : bool) (c : Camera) : Camera :=
  mkCamera (_oldMousePosition c) b (_position c) (_focus c) (_upVector c)
           (_viewProjectionMatrix c) (canvasSize c).

Definition set_position (p : vec3) (c : Camera) : Camera :=
  mkCamera (_oldMousePosition c) (_limitCameraPosition c) p (_focus c)
           (_upVector c) (_viewProjectionMatrix c) (canvasSize c).

Definition set_viewProjectionMatrix (m : mat4) (c : Camera) : Camera :=
  mkCamera (_oldMousePosition c) (_limitCameraPosition c) (_position c)
           (_focus c) (_upVector c) m (canvasSize c).

Definition set_z (z : R) (p : vec3) : vec3 := mkvec3 (v3x p) (v3y p) z.

(** [Renderer::updateViewProjectionMatrix]. *)
Definition updateViewProjectionMatrix (c : Camera) : Camera :=
  let viewMatrix := glm_lookAt (_position c) (_focus c) (_upVector c) in
  let projectionMatrix :=
    glm_perspectiveFov _fieldOfView
      (IZR (iv2x (canvasSize c))) (IZR (iv2y (canvasSize c)))
      _nearPlane _farPlane in
  set_viewProjectionMatrix (mat4_mul projectionMatrix viewMatrix) c.

(** [Renderer::scaledMouse], given the widget size. *)
Definition scaledMouse (size : ivec2) (mousePos : ivec2) : vec2 :=
  mkvec2 (IZR (iv2x mousePos) * 2 / IZR (iv2x size) - 1)
         (IZR (iv2y mousePos) * 2 / (IZR (iv2y size) - 1)).

(** The angles [phi] that [rotate] derives from a drag. *)
Definition orbitAngles (oldMouse newMouse : vec2) : vec2 :=
  let t := glm.scale2 (glm.sub2 oldMouse newMouse) _rotationalFactor in
  let t := glm.min2 t (glm.splat2 1) in
  let t := glm.max2 t (glm.splat2 (-1)) in
  glm.scale2 (glm.asin2 t) 2.

(** The tilt [rotate] measures before it applies a drag. *)
Definition currentTilt (c : Camera) : R :=
  acos (glm.dot (glm.normalize (_upVector c)) (glm.normalize (_position c))).

(** [Renderer::rotate]. *)
Definition rotate (c : Camera) (newMouse : vec2) : Camera :=
  if glm.eq2 newMouse (_oldMousePosition c) then c
  else
    let phi := orbitAngles (_oldMousePosition c) newMouse in
    let rotationQuat := glm.angleAxis (v2x phi) (_upVector c) in
    let closeToTop :=
      Rlt_b (currentTilt c) _minimumTilt && Rlt_b (v2y phi) 0 in
    let closeToBottom :=
      Rgt_b (currentTilt c) _maximumTilt && Rgt_b (v2y phi) 0 in
    if closeToBottom || closeToTop then c
    else
      let tiltQuat :=
        glm.angleAxis (v2y phi)
          (glm.normalize (glm.cross (_upVector c) (_position c))) in
      let p := glm.qrot (glm.qmul tiltQuat rotationQuat) (_position c) in
      let p :=
        if _limitCameraPosition c
        then set_z (glm.max (v3z p) _minimumHeight) p
        else p in
      updateViewProjectionMatrix (set_position p c).

(** [Renderer::zoom]. *)
Definition zoom (c : Camera) (newMouse : vec2) : Camera :=
  if glm.eq2 newMouse (_oldMousePosition c) then c
  else
    let t := v2y newMouse - v2y (_oldMousePosition c) in
    let positionVector := glm.sub3 (_position c) (_focus c) in
    let p := glm.scale3 (1 + t) positionVector in
    let p :=
      if _limitCameraPosition c then
        let p :=
          if Rgt_b (glm.length p) _maximumDistance
          then glm.scale3 _maximumDistance (glm.normalize positionVector)
          else p in
        let p :=
          if Rlt_b (glm.length p) _minimumDistance
          then glm.scale3 _minimumDistance (glm.normalize positionVector)
          else p in
        set_z (glm.max (v3z p) _minimumHeight) p
      else p in
    updateViewProjectionMatrix (set_position p c).

(** Mouse buttons held during a move event ([event->buttons()]). *)
Inductive MouseButtons := NoButton | LeftButton | RightButton | OtherButtons.

(** [Renderer::mousePressEvent]. *)
Definition mousePressEvent (c : Camera) (pos : ivec2) : Camera :=
  set_oldMousePosition (scaledMouse (canvasSize c) pos) c.

(** The body of [Renderer::mouseMoveEvent] once [newMouse] is known. *)
Definition dragMove (c : Camera) (newMouse : vec2) (buttons : MouseButtons)
  : Camera :=
  let c :=
    match buttons with
    | LeftButton => rotate c newMouse
    | RightButton => zoom c newMouse
    | _ => c
    end in
  set_oldMousePosition newMouse c.

(** [Renderer::mouseMoveEvent]. *)
Definition mouseMoveEvent (c : Camera) (pos : ivec2) (buttons : MouseButtons)
  : Camera :=
  dragMove c (scaledMouse (canvasSize c) pos) buttons.

(** A run of drags with one button held. *)
Definition drags (buttons : MouseButtons) (c : Camera) (path : list vec2)
  : Camera :=
  fold_left (fun c newMouse => dragMove c newMouse buttons) path c.

(** [Renderer::limitCameraPosition] (the slot). *)
Definition limitCameraPosition (c : Camera) (limitDistance : bool) : Camera :=
  set_limitCameraPosition limitDistance c.

(** The camera part of [Renderer::initializeGL]. *)
Definition initializeCamera (c : Camera) : Camera :=
  updateViewProjectionMatrix
    (mkCamera (_oldMousePosition c) (_limitCameraPosition c)
              _defaultPosition _defaultFocus _defaultUp
              (_viewProjectionMatrix c) (canvasSize c)).

(** ** OpenGL context

    The context records, in order, the OpenGL entry points that
    [renderer.cpp] calls itself, and hands out object names.  Methods of
    ghoul objects ([Texture], [ProgramObject], [TextureUnit]) are external:
    they are modelled by their one precondition here, a non-null receiver. *)

Local Open Scope Z_scope.

Inductive GLenum :=
| GL_ARRAY_BUFFER | GL_ELEMENT_ARRAY_BUFFER
| GL_STATIC_DRAW | GL_STREAM_DRAW
| GL_QUADS | GL_POINTS
| GL_DEPTH_TEST | GL_BLEND | GL_TEXTURE_CUBE_MAP
| GL_PROGRAM_POINT_SIZE | GL_POINT_SPRITE
| GL_TEXTURE_MAG_FILTER | GL_TEXTURE_MIN_FILTER
| GL_TEXTURE_WRAP_S | GL_TEXTURE_WRAP_T | GL_TEXTURE_WRAP_R
| GL_NEAREST | GL_CLAMP_TO_EDGE
| GL_TEXTURE_CUBE_MAP_POSITIVE_X | GL_TEXTURE_CUBE_MAP_NEGATIVE_X
| GL_TEXTURE_CUBE_MAP_POSITIVE_Y | GL_TEXTURE_CUBE_MAP_NEGATIVE_Y
| GL_TEXTURE_CUBE_MAP_POSITIVE_Z | GL_TEXTURE_CUBE_MAP_NEGATIVE_Z.

(** A texture image loaded by ghoul, and a ghoul program object. *)
Record Texture := mkTexture { textureFile : string }.
Record ProgramObject := mkProgramObject { programName : string }.

Inductive BufferContents :=
| Floats (data : list R)
| UnsignedShorts (data : list Z).

Inductive GLcall :=
| glClearColor
| glBlendFunc
| glClear
| glEnable (cap : GLenum)
| glDisable (cap : GLenum)
| glGenBuffers (name : Z)
| glGenTextures (name : Z)
| glEnableVertexAttribArray (index : Z)
| glBindBuffer (target : GLenum) (buffer : Z)
| glBufferData (target : GLenum) (size : Z) (data : BufferContents)
               (usage : GLenum)
| glVertexAttribPointer (index size : Z) (normalized : bool)
| glBindTexture (target : GLenum) (texture : Z)
| glTexParameteri (target pname param : GLenum)
| glTexImage2D (target : GLenum) (image : Texture)
| glDrawArrays (mode : GLenum) (first count : Z)
| glDrawElements (mode : GLenum) (count : Z).

Record GL := mkGL {
  gl_calls : list GLcall;      (* oldest first *)
  gl_nextName : positive       (* the next unused object name *)
}.

(** State passing over the context. *)
Definition GLM (A : Type) : Type := GL -> A * GL.

Definition ret {A} (a : A) : GLM A := fun gl => (a, gl).
Definition bind {A B} (m : GLM A) (k : A -> GLM B) : GLM B :=
  fun gl => let (a, gl') := m gl in k a gl'.

Declare Scope glm_scope.
Delimit Scope glm_scope with glm.
Notation "x <- m ;; k" := (bind m (fun x => k))
  (at level 61, m at next level, right associativity) : glm_scope.
Notation "m ;; k" := (bind m (fun _ => k))
  (at level 61, right associativity) : glm_scope.

Definition call (c : GLcall) : GLM unit :=
  fun gl => (tt, mkGL (gl_calls gl ++ [c]) (gl_nextName gl)).

(** [glGenBuffers(1, &name)] and [glGenTextures(1, &name)]: a fresh,
    non-zero name. *)
Definition genName (mk : Z -> GLcall) : GLM Z :=
  fun gl =>
    let n := Zpos (gl_nextName gl) in
    (n, mkGL (gl_calls gl ++ [mk n]) (Pos.succ (gl_nextName gl))).

Definition when (b : bool) (m : GLM unit) : GLM unit :=
  if b then m else ret tt.

Definition sizeof_float : Z := 4.
Definition sizeof_GLushort : Z := 2.

(** [static_cast<GLsizei>]: reduction into the signed 32-bit range. *)
Definition to_GLsizei (n : Z) : Z := (n + 2^31) mod 2^32 - 2^31.

Definition floats_of (v : vec3) : list R := [v3x v; v3y v; v3z v].

(** ** The external asset loader: which loads, compiles and links succeed *)

Record AssetLoader := mkAssetLoader {
  glewInit : bool;
  loadTexture : string -> option Texture;
  compileShaderObjects : ProgramObject -> bool;
  linkProgramObject : ProgramObject -> bool
}.

(** ** Subsystem state *)

Record GroundObjects := mkGround {
  _renderGround : bool;
  _groundVBO : Z;
  _groundTexture : option Texture;
  _groundTextureNormal : option Texture;
  _groundProgram : option ProgramObject;
  _groundProgramReady : bool
}.

Record SkyboxObjects := mkSkybox {
  _renderSkybox : bool;
  _skyboxVBO : Z;
  _skyboxIBO : Z;
  _numSkyboxIndices : Z;
  _skyboxTexture : Z;
  _skyboxProgram : option ProgramObject;
  _skyboxProgramReady : bool
}.

Record ParticleObjects := mkParticle {
  _particleData : option (list vec3);
  _particleVBO : Z;
  _particleTexture : option Texture;
  _particleProgram : option ProgramObject;
  _particleProgramReady : bool;
  _numberOfParticles : Z
}.

Record Renderer := mkRenderer {
  camera : Camera;
  _lightPosition : vec3;
  ground : GroundObjects;
  skybox : SkyboxObjects;
  particles : ParticleObjects
}.

Definition is_null {A} (p : option A) : bool :=
  match p with Some _ => false | None => true end.
Definition not_null {A} (p : option A) : bool := negb (is_null p).
Definition nonzero (n : Z) : bool := negb (n =? 0).

(** [Renderer::groundIsReady]. *)
Definition groundIsReady (g : GroundObjects) : bool :=
  nonzero (_groundVBO g) && not_null (_groundProgram g)
  && _groundProgramReady g && not_null (_groundTexture g)
  && not_null (_groundTextureNormal g).

(** [Renderer::skyboxIsReady]. *)
Definition skyboxIsReady (s : SkyboxObjects) : bool :=
  nonzero (_skyboxVBO s) && nonzero (_skyboxIBO s)
  && not_null (_skyboxProgram s) && _skyboxProgramReady s
  && nonzero (_skyboxTexture s).

(** [Renderer::particlesAreReady]. *)
Definition particlesAreReady (p : ParticleObjects) : bool :=
  nonzero (_particleVBO p) && not_null (_particleProgram p)
  && _particleProgramReady p.

(** ** Resource creation *)

Local Open Scope glm_scope.

(** A vertex coordinate [k * _skyboxSize], for [k] one of [1], [-1]. *)
Definition sky (k : R) : R := (k * _skyboxSize)%R.

(** [Renderer::generateGroundBuffer]. *)
Definition generateGroundBuffer (g : GroundObjects)
  : GLM GroundObjects :=
  vbo <- (if _groundVBO g =? 0 then genName glGenBuffers
          else ret (_groundVBO g)) ;;
  call (glEnableVertexAttribArray 0) ;;
  call (glBindBuffer GL_ARRAY_BUFFER vbo) ;;
  call (glBufferData GL_ARRAY_BUFFER (3 * 4 * sizeof_float)
          (Floats [sky (-1); sky (-1); 0%R;   sky 1; sky (-1); 0%R;
                   sky 1; sky 1; 0%R;         sky (-1); sky 1; 0%R])
          GL_STATIC_DRAW) ;;
  call (glVertexAttribPointer 0 3 false) ;;
  ret (mkGround (_renderGround g) vbo (_groundTexture g)
                (_groundTextureNormal g) (_groundProgram g)
                (_groundProgramReady g)).

(** Compile, then link if compiling succeeded; the ready flag is written
    only in that case. *)
Definition buildProgram (assets : AssetLoader) (p : ProgramObject)
           (ready : bool) : bool :=
  if compileShaderObjects assets p then linkProgramObject assets p
  else ready.

(** [Renderer::initializeGround]. *)
Definition initializeGround (assets : AssetLoader) (g : GroundObjects)
  : GLM GroundObjects :=
  g <- generateGroundBuffer g ;;
  let groundTexture := loadTexture assets "${ASSETS}/dirt.jpg" in
  let groundTextureNormal := loadTexture assets "${ASSETS}/dirt_n.jpg" in
  let groundProgram := mkProgramObject "Ground" in
  ret (mkGround (_renderGround g) (_groundVBO g) groundTexture
                groundTextureNormal (Some groundProgram)
                (buildProgram assets groundProgram (_groundProgramReady g))).

(** [Renderer::generateSkyboxBuffer]. *)
Definition generateSkyboxBuffer (s : SkyboxObjects)
  : GLM SkyboxObjects :=
  vbo <- (if _skyboxVBO s =? 0 then genName glGenBuffers
          else ret (_skyboxVBO s)) ;;
  call (glEnableVertexAttribArray 0) ;;
  call (glBindBuffer GL_ARRAY_BUFFER vbo) ;;
  call (glBufferData GL_ARRAY_BUFFER (24 * sizeof_float)
          (Floats [sky (-1); sky 1; sky 1;        sky (-1); sky (-1); sky 1;
                   sky 1; sky (-1); sky 1;        sky 1; sky 1; sky 1;
                   sky (-1); sky 1; sky (-1);     sky (-1); sky (-1); sky (-1);
                   sky 1; sky (-1); sky (-1);     sky 1; sky 1; sky (-1)])
          GL_STATIC_DRAW) ;;
  call (glVertexAttribPointer 0 3 false) ;;
  ibo <- (if _skyboxIBO s =? 0 then genName glGenBuffers
          else ret (_skyboxIBO s)) ;;
  call (glBindBuffer GL_ELEMENT_ARRAY_BUFFER ibo) ;;
  call (glBufferData GL_ELEMENT_ARRAY_BUFFER (24 * sizeof_GLushort)
          (UnsignedShorts [0; 1; 2; 3;  3; 2; 6; 7;  7; 6; 5; 4;
                           4; 5; 1; 0;  0; 3; 7; 4;  1; 2; 6; 5])
          GL_STATIC_DRAW) ;;
  ret (mkSkybox (_renderSkybox s) vbo ibo 24 (_skyboxTexture s)
                (_skyboxProgram s) (_skyboxProgramReady s)).

(** The six cube-map uploads at the end of [initializeSkybox], made only
    when every face loaded. *)
Definition uploadCubeMap (assets : AssetLoader) : GLM unit :=
  match loadTexture assets "${ASSETS}/xpos.png",
        loadTexture assets "${ASSETS}/xneg.png",
        loadTexture assets "${ASSETS}/ypos.png",
        loadTexture assets "${ASSETS}/yneg.png",
        loadTexture assets "${ASSETS}/zpos.png",
        loadTexture assets "${ASSETS}/zneg.png" with
  | Some xPos, Some xNeg, Some yPos, Some yNeg, Some zPos, Some zNeg =>
      call (glTexImage2D GL_TEXTURE_CUBE_MAP_POSITIVE_X xPos) ;;
      call (glTexImage2D GL_TEXTURE_CUBE_MAP_NEGATIVE_X xNeg) ;;
      call (glTexImage2D GL_TEXTURE_CUBE_MAP_POSITIVE_Y yPos) ;;
      call (glTexImage2D GL_TEXTURE_CUBE_MAP_NEGATIVE_Y yNeg) ;;
      call (glTexImage2D GL_TEXTURE_CUBE_MAP_POSITIVE_Z zPos) ;;
      call (glTexImage2D GL_TEXTURE_CUBE_MAP_NEGATIVE_Z zNeg)
  | _, _, _, _, _, _ => ret tt
  end.

(** [Renderer::initializeSkybox]. *)
Definition initializeSkybox (assets : AssetLoader) (s : SkyboxObjects)
  : GLM SkyboxObjects :=
  s <- generateSkyboxBuffer s ;;
  let skyboxProgram := mkProgramObject "Skybox" in
  let ready := buildProgram assets skyboxProgram (_skyboxProgramReady s) in
  call (glEnable GL_TEXTURE_CUBE_MAP) ;;
  tex <- genName glGenTextures ;;
  call (glBindTexture GL_TEXTURE_CUBE_MAP tex) ;;
  call (glTexParameteri GL_TEXTURE_CUBE_MAP GL_TEXTURE_MAG_FILTER GL_NEAREST) ;;
  call (glTexParameteri GL_TEXTURE_CUBE_MAP GL_TEXTURE_MIN_FILTER GL_NEAREST) ;;
  call (glTexParameteri GL_TEXTURE_CUBE_MAP GL_TEXTURE_WRAP_S GL_CLAMP_TO_EDGE) ;;
  call (glTexParameteri GL_TEXTURE_CUBE_MAP GL_TEXTURE_WRAP_T GL_CLAMP_TO_EDGE) ;;
  call (glTexParameteri GL_TEXTURE_CUBE_MAP GL_TEXTURE_WRAP_R GL_CLAMP_TO_EDGE) ;;
  uploadCubeMap assets ;;
  ret (mkSkybox (_renderSkybox s) (_skyboxVBO s) (_skyboxIBO s)
                (_numSkyboxIndices s) tex (Some skyboxProgram) ready).

(** [Renderer::initializeParticle]. *)
Definition initializeParticle (assets : AssetLoader) (p : ParticleObjects)
  : ParticleObjects :=
  let particleTexture := loadTexture assets "${ASSETS}/particle.png" in
  let particleProgram := mkProgramObject "Particle" in
  mkParticle (_particleData p) (_particleVBO p) particleTexture
             (Some particleProgram)
             (buildProgram assets particleProgram (_particleProgramReady p))
             (_numberOfParticles p).

(** The constructor [Renderer::Renderer]: every handle null, both toggles
    and the camera limit on.  The camera vectors are not initialised by the
    constructor; they are taken as given. *)
Definition newRenderer (c : Camera) (light : vec3) : Renderer :=
  mkRenderer (set_limitCameraPosition true c) light
             (mkGround true 0 None None None false)
             (mkSkybox true 0 0 0 0 None false)
             (mkParticle None 0 None None false 0).

(** [Renderer::initializeGL]. *)
Definition initializeGL (assets : AssetLoader) (r : Renderer)
  : GLM Renderer :=
  if glewInit assets then
    call glClearColor ;;
    call (glEnable GL_DEPTH_TEST) ;;
    call (glEnable GL_BLEND) ;;
    call glBlendFunc ;;
    g <- initializeGround assets (ground r) ;;
    s <- initializeSkybox assets (skybox r) ;;
    let p := initializeParticle assets (particles r) in
    ret (mkRenderer (initializeCamera (camera r)) _defaultLightPosition
                    g s p)
  else ret r.

(** ** Particle stream *)

(** [Renderer::setData]. *)
Definition setData (p : ParticleObjects) (particleData : option (list vec3))
  : ParticleObjects :=
  mkParticle particleData (_particleVBO p) (_particleTexture p)
             (_particleProgram p) (_particleProgramReady p)
             (_numberOfParticles p).

Definition set_numberOfParticles (n : Z) (p : ParticleObjects)
  : ParticleObjects :=
  mkParticle (_particleData p) (_particleVBO p) (_particleTexture p)
             (_particleProgram p) (_particleProgramReady p) n.

Definition set_particleVBO (vbo : Z) (p : ParticleObjects)
  : ParticleObjects :=
  mkParticle (_particleData p) vbo (_particleTexture p)
             (_particleProgram p) (_particleProgramReady p)
             (_numberOfParticles p).

(** [std::vector::size()]. *)
Definition size (data : list vec3) : Z := Z.of_nat (List.length data).

(** [Renderer::updateData].  The byte count [size() * 3 * sizeof(float)]
    is a [size_t] product that cannot wrap: a vector never holds more than
    [max_size()] elements. *)
Definition updateData (p : ParticleObjects) : GLM ParticleObjects :=
  match _particleData p with
  | None => ret (set_numberOfParticles 0 p)
  | Some data =>
      if size data =? 0 then ret (set_numberOfParticles 0 p)
      else
        vbo <- (if _particleVBO p =? 0 then genName glGenBuffers
                else ret (_particleVBO p)) ;;
        call (glEnableVertexAttribArray 0) ;;
        call (glBindBuffer GL_ARRAY_BUFFER vbo) ;;
        call (glBufferData GL_ARRAY_BUFFER (size data * 3 * sizeof_float)
                (Floats (flat_map floats_of data)) GL_STREAM_DRAW) ;;
        call (glVertexAttribPointer 0 3 false) ;;
        ret (set_numberOfParticles (to_GLsizei (size data))
               (set_particleVBO vbo p))
  end.

(** [Renderer::numberOfParticles]: the count as [unsigned int]. *)
Definition numberOfParticles (p : ParticleObjects) : Z :=
  _numberOfParticles p mod 2^32.

(** ** Drawing

    A draw either completes or dereferences a null pointer ([None]). *)

Definition Draw : Type := GL -> option GL.

Definition run (m : GLM unit) : Draw := fun gl => Some (snd (m gl)).

(** Member access through a pointer. *)
Definition deref {A} (p : option A) (k : A -> Draw) : Draw :=
  match p with
  | Some a => k a
  | None => fun _ => None
  end.

Definition seq (a b : Draw) : Draw :=
  fun gl => match a gl with Some gl' => b gl' | None => None end.

Definition skip : Draw := fun gl => Some gl.

Declare Scope draw_scope.
Delimit Scope draw_scope with draw.
Notation "a >> b" := (seq a b) (at level 62, right associativity)
  : draw_scope.
Notation "'gl!' c" := (run (call c)) (at level 10, c at level 9)
  : draw_scope.
Local Open Scope draw_scope.

(** [Renderer::drawGround]. *)
Definition drawGround (r : Renderer) : Draw :=
  let g := ground r in
  deref (_groundProgram g) (fun _ =>        (* activate *)
  deref (_groundTexture g) (fun _ =>        (* enable, bind *)
  deref (_groundTextureNormal g) (fun _ =>  (* enable, bind *)
    gl! (glEnableVertexAttribArray 0) >>
    gl! (glBindBuffer GL_ARRAY_BUFFER (_groundVBO g)) >>
    gl! (glVertexAttribPointer 0 3 false) >>
    gl! (glDrawArrays GL_QUADS 0 4) >>
    gl! (glBindBuffer GL_ARRAY_BUFFER 0)))).

(** [Renderer::drawSkybox]. *)
Definition drawSkybox (r : Renderer) : Draw :=
  let s := skybox r in
  deref (_skyboxProgram s) (fun _ =>        (* activate *)
    gl! (glEnable GL_TEXTURE_CUBE_MAP) >>
    gl! (glBindTexture GL_TEXTURE_CUBE_MAP (_skyboxTexture s)) >>
    gl! (glEnableVertexAttribArray 0) >>
    gl! (glBindBuffer GL_ARRAY_BUFFER (_skyboxVBO s)) >>
    gl! (glVertexAttribPointer 0 3 false) >>
    gl! (glBindBuffer GL_ELEMENT_ARRAY_BUFFER (_skyboxIBO s)) >>
    gl! (glDrawElements GL_QUADS (_numSkyboxIndices s)) >>
    gl! (glBindBuffer GL_ARRAY_BUFFER 0) >>
    gl! (glBindBuffer GL_ELEMENT_ARRAY_BUFFER 0) >>
    gl! (glDisable GL_TEXTURE_CUBE_MAP)).

(** [Renderer::drawParticles]. *)
Definition drawParticles (r : Renderer) : Draw :=
  let p := particles r in
  gl! (glEnable GL_PROGRAM_POINT_SIZE) >>
  gl! (glEnable GL_POINT_SPRITE) >>
  deref (_particleProgram p) (fun _ =>      (* activate *)
  deref (_particleTexture p) (fun _ =>      (* enable, bind *)
    gl! (glEnableVertexAttribArray 0) >>
    gl! (glBindBuffer GL_ARRAY_BUFFER (_particleVBO p)) >>
    gl! (glVertexAttribPointer 0 3 true) >>
    gl! (glDrawArrays GL_POINTS 0 (_numberOfParticles p)) >>
    gl! (glBindBuffer GL_ARRAY_BUFFER 0) >>
    gl! (glDisable GL_POINT_SPRITE) >>
    gl! (glDisable GL_PROGRAM_POINT_SIZE))).

(** [Renderer::paintGL], over any draw backend: [Ctx] is what the backend
    threads, and the four operations are the clear and the three subsystem
    draws.  ([PERFORMANCE_MEASUREMENTS] is not defined.) *)
Section PaintGL.
Context {Ctx : Type}.
Variable clear : Ctx -> option Ctx.
Variables drawGround_ drawSkybox_ drawParticles_
  : Renderer -> Ctx -> option Ctx.

Definition andThen (a b : Ctx -> option Ctx) : Ctx -> option Ctx :=
  fun c => match a c with Some c' => b c' | None => None end.

Definition guarded (b : bool) (a : Ctx -> option Ctx) : Ctx -> option Ctx :=
  if b then a else Some.

Definition paintGL_on (r : Renderer) : Ctx -> option Ctx :=
  andThen clear
    (andThen
       (guarded (_renderGround (ground r) && groundIsReady (ground r))
                (drawGround_ r))
       (andThen
          (guarded (_renderSkybox (skybox r) && skyboxIsReady (skybox r))
                   (drawSkybox_ r))
          (guarded (particlesAreReady (particles r)) (drawParticles_ r)))).
End PaintGL.

(** [Renderer::paintGL] on the OpenGL context. *)
Definition paintGL : Renderer -> Draw :=
  paintGL_on (gl! glClear) drawGround drawSkybox drawParticles.

(** A recording backend: it notes which operation was invoked, in order. *)
Inductive FrameOp := OpClear | OpGround | OpSkybox | OpParticles.

Definition record (op : FrameOp) : list FrameOp -> option (list FrameOp) :=
  fun log => Some (log ++ [op]).

Definition paintGL_recorded (r : Renderer) : option (list FrameOp) :=
  paintGL_on (record OpClear) (fun _ => record OpGround)
             (fun _ => record OpSkybox) (fun _ => record OpParticles) r [].

(** The toggle slots. *)
Definition showGroundRendering (g : GroundObjects) (showRendering : bool)
  : GroundObjects :=
  mkGround showRendering (_groundVBO g) (_groundTexture g)
           (_groundTextureNormal g) (_groundProgram g)
           (_groundProgramReady g).

Definition showSkyboxRendering (s : SkyboxObjects) (showRendering : bool)
  : SkyboxObjects :=
  mkSkybox showRendering (_skyboxVBO s) (_skyboxIBO s) (_numSkyboxIndices s)
           (_skyboxTexture s) (_skyboxProgram s) (_skyboxProgramReady s).

(** ** Vocabulary of the properties *)

Local Open Scope R_scope.

(** Distance of the camera from the focus. *)
Definition distanceFromFocus (c : Camera) : R :=
  glm.length (glm.sub3 (_position c) (_focus c)).

(** The camera frame that [initializeGL] sets up and no handler changes:
    focus at the origin, up vector the world vertical. *)
Definition standardFrame (c : Camera) : Prop :=
  _focus c = _defaultFocus /\ _upVector c = _defaultUp.

Definition tiltWithinLimits (c : Camera) : Prop :=
  _minimumTilt <= currentTilt c <= _maximumTilt.

Definition distanceWithinLimits (c : Camera) : Prop :=
  _minimumDistance <= distanceFromFocus c <= _maximumDistance.

(** The two conditions under which [rotate] refuses a moving drag. *)
Definition closeToTop (c : Camera) (newMouse : vec2) : Prop :=
  currentTilt c < _minimumTilt
  /\ v2y (orbitAngles (_oldMousePosition c) newMouse) < 0.

Definition closeToBottom (c : Camera) (newMouse : vec2) : Prop :=
  currentTilt c > _maximumTilt
  /\ v2y (orbitAngles (_oldMousePosition c) newMouse) > 0.

(** What a frame should invoke after the clear, from the toggles and the
    readiness predicates. *)
Definition wanted (r : Renderer) (op : FrameOp) : bool :=
  match op with
  | OpClear => false
  | OpGround => _renderGround (ground r) && groundIsReady (ground r)
  | OpSkybox => _renderSkybox (skybox r) && skyboxIsReady (skybox r)
  | OpParticles => particlesAreReady (particles r)
  end.

Definition expectedDraws (r : Renderer) : list FrameOp :=
  filter (wanted r) [OpGround; OpSkybox; OpParticles].

(** The rotation by [angle], in radians, about the up axis (0, 0, 1),
    counter-clockwise seen from above: what "a yaw rotation of [angle]
    about the up axis" does to a vector. *)
Definition rotateAboutUp (angle : R) (v : vec3) : vec3 :=
  mkvec3 (v3x v * cos angle - v3y v * sin angle)
         (v3x v * sin angle + v3y v * cos angle)
         (v3z v).

(** Squared norm and vector part of a quaternion. *)
Definition qnorm2 (q : quat) : R :=
  qw q * qw q + qx q * qx q + qy q * qy q + qz q * qz q.

Definition qvec (q : quat) : vec3 := mkvec3 (qx q) (qy q) (qz q).

(** What the GUI layer can send to the camera: a button press at a
    normalized position, a move with some buttons held, the limit toggle. *)
Inductive Input :=
| DragStart (m : vec2)
| DragMove (m : vec2) (buttons : MouseButtons)
| SetLimit (limit : bool).

Definition handle (c : Camera) (i : Input) : Camera :=
  match i with
  | DragStart m => set_oldMousePosition m c
  | DragMove m buttons => dragMove c m buttons
  | SetLimit limit => limitCameraPosition c limit
  end.

Definition handleAll (c : Camera) (inputs : list Input) : Camera :=
  fold_left handle inputs c.



(** The draw command by which each subsystem draw shows in the OpenGL
    call sequence. *)
Definition isDrawCall (c : GLcall) : bool :=
  match c with
  | glDrawArrays _ _ _ | glDrawElements _ _ => true
  | _ => false
  end.

Definition drawCallOf (r : Renderer) (op : FrameOp) : list GLcall :=
  match op with
  | OpClear => []
  | OpGround => [glDrawArrays GL_QUADS 0 4]
  | OpSkybox => [glDrawElements GL_QUADS (_numSkyboxIndices (skybox r))]
  | OpParticles =>
      [glDrawArrays GL_POINTS 0 (_numberOfParticles (particles r))]
  end.

(** The OpenGL calls of each subsystem draw, as its body lists them. *)
Definition groundCalls (g : GroundObjects) : list GLcall :=
  [ glEnableVertexAttribArray 0;
    glBindBuffer GL_ARRAY_BUFFER (_groundVBO g);
    glVertexAttribPointer 0 3 false;
    glDrawArrays GL_QUADS 0 4;
    glBindBuffer GL_ARRAY_BUFFER 0 ].

Definition skyboxCalls (s : SkyboxObjects) : list GLcall :=
  [ glEnable GL_TEXTURE_CUBE_MAP;
    glBindTexture GL_TEXTURE_CUBE_MAP (_skyboxTexture s);
    glEnableVertexAttribArray 0;
    glBindBuffer GL_ARRAY_BUFFER (_skyboxVBO s);
    glVertexAttribPointer 0 3 false;
    glBindBuffer GL_ELEMENT_ARRAY_BUFFER (_skyboxIBO s);
    glDrawElements GL_QUADS (_numSkyboxIndices s);
    glBindBuffer GL_ARRAY_BUFFER 0;
    glBindBuffer GL_ELEMENT_ARRAY_BUFFER 0;
    glDisable GL_TEXTURE_CUBE_MAP ].

Definition particleCalls (p : ParticleObjects) : list GLcall :=
  [ glEnable GL_PROGRAM_POINT_SIZE;
    glEnable GL_POINT_SPRITE;
    glEnableVertexAttribArray 0;
    glBindBuffer GL_ARRAY_BUFFER (_particleVBO p);
    glVertexAttribPointer 0 3 true;
    glDrawArrays GL_POINTS 0 (_numberOfParticles p);
    glBindBuffer GL_ARRAY_BUFFER 0;
    glDisable GL_POINT_SPRITE;
    glDisable GL_PROGRAM_POINT_SIZE ].

(** ** Scenarios *)

(** The camera right after start-up on the 800x600 canvas of the GUI. *)
Definition startCamera (limit : bool) (oldMouse : vec2) : Camera :=
  mkCamera oldMouse limit _defaultPosition _defaultFocus _defaultUp
           (mat4_mul (glm_perspectiveFov _fieldOfView 800 600
                                         _nearPlane _farPlane)
                     (glm_lookAt _defaultPosition _defaultFocus _defaultUp))
           (mkivec2 800 600).

(** The same camera moved to [p]. *)
Definition cameraAt (limit : bool) (oldMouse : vec2) (p : vec3) : Camera :=
  updateViewProjectionMatrix (set_position p (startCamera limit oldMouse)).

(** Every asset loads, compiles and links, except the particle sprite. *)
Definition assetsWithoutParticleSprite : AssetLoader :=
  mkAssetLoader true
    (fun file => if String.eqb file "${ASSETS}/particle.png" then None
                 else Some (mkTexture file))
    (fun _ => true) (fun _ => true).

Definition freshGL : GL := mkGL [] 1%positive.

(** Start-up with [assetsWithoutParticleSprite], then one tick that binds
    and uploads a single particle. *)
Definition startedWithoutSprite : Renderer * GL :=
  let r0 := newRenderer (startCamera true (mkvec2 0 0)) (mkvec3 0 0 0) in
  let (r1, gl1) := initializeGL assetsWithoutParticleSprite r0 freshGL in
  let (p2, gl2) :=
    updateData (setData (particles r1) (Some [mkvec3 0 0 0])) gl1 in
  (mkRenderer (camera r1) (_lightPosition r1) (ground r1) (skybox r1) p2,
   gl2).

(** ** The GUI layer ([gui.cpp]) *)

(** The cached matrix that belongs to the current pose and widget size. *)
Definition matrixConsistent (c : Camera) : Prop :=
  _viewProjectionMatrix c
  = mat4_mul (glm_perspectiveFov _fieldOfView
                (IZR (iv2x (canvasSize c))) (IZR (iv2y (canvasSize c)))
                _nearPlane _farPlane)
             (glm_lookAt (_position c) (_focus c) (_upVector c)).

(** Arithmetic on [int]: reduction into the signed 32-bit range. *)
Definition to_int (n : Z) : Z := ((n + 2^31) mod 2^32 - 2^31)%Z.

(** The state of a [QSlider] that the GUI reads. *)
Record Slider := mkSlider { minimum : Z; maximum : Z; value : Z }.

(** The body shared by [GUI::sourceValue] and [GUI::effectValue]:
    [(static_cast<float>(currentValue) - minValue) / (maxValue - minValue)],
    the divisor being an [int] difference. *)
Definition sliderValue (s : Slider) : R :=
  (IZR (value s) - IZR (minimum s))
  / IZR (to_int (maximum s - minimum s)).

Record GUI := mkGUI {
  _renderer : Renderer;
  _sourceValueSlider : Slider;
  _effectValueSlider : Slider;
  timerInterval : Z                       (* [_timer->interval()], in ms *)
}.

(** [GUI::sourceValue] and [GUI::effectValue]. *)
Definition sourceValue (g : GUI) : R := sliderValue (_sourceValueSlider g).
Definition effectValue (g : GUI) : R := sliderValue (_effectValueSlider g).

Definition set_particles (p : ParticleObjects) (r : Renderer) : Renderer :=
  mkRenderer (camera r) (_lightPosition r) (ground r) (skybox r) p.

Definition set_renderer (r : Renderer) (g : GUI) : GUI :=
  mkGUI r (_sourceValueSlider g) (_effectValueSlider g) (timerInterval g).

(** [GUI::handleUpdate]: the update callback, then [updateData], the
    particle-count label, and a redraw ([updateGL] runs [paintGL]).  The
    callback works in place on the vector the renderer points to; it is
    given as the function from the old contents to the new ones.  The
    result carries the number the label shows; it is [None] if the redraw
    dereferences a null pointer. *)
Definition handleUpdate (updateCallback : R -> list vec3 -> list vec3)
           (g : GUI) (gl : GL) : option (GUI * Z * GL) :=
  let interval := timerInterval g in
  let deltaT := (IZR interval / 1000)%R in
  let r := _renderer g in
  let p := setData (particles r)
                   (option_map (updateCallback deltaT)
                               (_particleData (particles r))) in
  let (p', gl1) := updateData p gl in
  let r' := set_particles p' r in
  let label := numberOfParticles p' in
  match paintGL r' gl1 with
  | Some gl2 => Some (set_renderer r' g, label, gl2)
  | None => None
  end.

(** [update] of [main.cpp]: it leaves the particle vector alone. *)
Definition update (deltaT : R) (data : list vec3) : list vec3 := data.

(** Every asset loads, compiles and links. *)
Definition assetsComplete : AssetLoader :=
  mkAssetLoader true (fun file => Some (mkTexture file))
                (fun _ => true) (fun _ => true).

(** Start-up with [assetsComplete] on a fresh context. *)
Definition startedComplete : Renderer * GL :=
  initializeGL assetsComplete
    (newRenderer (startCamera true (mkvec2 0 0)) (mkvec3 0 0 0)) freshGL.

(** The GUI as its constructor leaves it, around a started renderer. *)
Definition startedGUI : GUI :=
  mkGUI (fst startedComplete) (mkSlider 0 2000 1000) (mkSlider 0 2000 1000)
        16.

(** * Properties *)

(** ** Comparisons and the GLM scalar functions *)

Lemma Rlt_b_true (a b : R) : a < b -> Rlt_b a b = true.
Proof. intros H; unfold Rlt_b; destruct (Rlt_dec a b); [reflexivity | contradiction]. Qed.

Lemma Rlt_b_false (a b : R) : b <= a -> Rlt_b a b = false.
Proof. intros H; unfold Rlt_b; destruct (Rlt_dec a b); [lra | reflexivity]. Qed.

Lemma Rgt_b_false (a b : R) : a <= b -> Rgt_b a b = false.
Proof. intros H; unfold Rgt_b; now apply Rlt_b_false. Qed.

Lemma Rgt_b_true (a b : R) : b < a -> Rgt_b a b = true.
Proof. intros H; unfold Rgt_b; now apply Rlt_b_true. Qed.

Lemma Rlt_b_iff (a b : R) : Rlt_b a b = true <-> a < b.
Proof.
  unfold Rlt_b; destruct (Rlt_dec a b); split; intros; try easy.
Qed.

Lemma Req_b_refl (a : R) : Req_b a a = true.
Proof. unfold Req_b; destruct (Req_dec_T a a); congruence. Qed.

Lemma Req_b_neq (a b : R) : a <> b -> Req_b a b = false.
Proof. intros H; unfold Req_b; destruct (Req_dec_T a b); congruence. Qed.

Lemma eq2_refl (a : vec2) : glm.eq2 a a = true.
Proof. unfold glm.eq2; now rewrite !Req_b_refl. Qed.

Lemma eq2_true (a b : vec2) : glm.eq2 a b = true -> a = b.
Proof.
  destruct a as [ax ay], b as [bx b_y]; unfold glm.eq2, Req_b; simpl.
  destruct (Req_dec_T ax bx), (Req_dec_T ay b_y); simpl; congruence.
Qed.

Lemma eq2_y_neq (a b : vec2) : v2y a <> v2y b -> glm.eq2 a b = false.
Proof.
  intros H; unfold glm.eq2; rewrite (Req_b_neq _ _ H); apply andb_false_r.
Qed.

Lemma eq2_x_neq (a b : vec2) : v2x a <> v2x b -> glm.eq2 a b = false.
Proof. intros H; unfold glm.eq2; now rewrite (Req_b_neq _ _ H). Qed.

Lemma glm_max_ge_r (a b : R) : b <= glm.max a b.
Proof. unfold glm.max; destruct (Rlt_dec a b); lra. Qed.

Lemma glm_max_l (a b : R) : b <= a -> glm.max a b = a.
Proof. intros H; unfold glm.max; destruct (Rlt_dec a b); lra. Qed.

Lemma glm_max_r (a b : R) : a < b -> glm.max a b = b.
Proof. intros H; unfold glm.max; destruct (Rlt_dec a b); lra. Qed.

Lemma glm_min_l (a b : R) : a <= b -> glm.min a b = a.
Proof. intros H; unfold glm.min; destruct (Rlt_dec b a); lra. Qed.

Lemma glm_min_r (a b : R) : b < a -> glm.min a b = b.
Proof. intros H; unfold glm.min; destruct (Rlt_dec b a); lra. Qed.

Lemma vec3_eta (p : vec3) : mkvec3 (v3x p) (v3y p) (v3z p) = p.
Proof. now destruct p. Qed.

Lemma vec3_ext (p q : vec3) :
  v3x p = v3x q -> v3y p = v3y q -> v3z p = v3z q -> p = q.
Proof. destruct p, q; simpl; congruence. Qed.

(** ** Lengths *)

Lemma dot_self_nonneg (v : vec3) : 0 <= glm.dot v v.
Proof. unfold glm.dot; nra. Qed.

Lemma dot_self_zero (v : vec3) : glm.dot v v = 0 -> v = glm.splat3 0.
Proof.
  destruct v as [a b c]; unfold glm.dot, glm.splat3; simpl; intros H.
  assert (a = 0) by nra. assert (b = 0) by nra. assert (c = 0) by nra.
  congruence.
Qed.

Lemma length_nonneg (v : vec3) : 0 <= glm.length v.
Proof. apply sqrt_pos. Qed.

Lemma length_scale3 (k : R) (v : vec3) :
  glm.length (glm.scale3 k v) = Rabs k * glm.length v.
Proof.
  unfold glm.length.
  replace (glm.dot (glm.scale3 k v) (glm.scale3 k v))
    with (Rsqr k * glm.dot v v) by (unfold glm.dot, glm.scale3, Rsqr; simpl; ring).
  rewrite sqrt_mult; [| apply Rle_0_sqr | apply dot_self_nonneg].
  now rewrite sqrt_Rsqr_abs.
Qed.

Lemma sub3_origin (p : vec3) : glm.sub3 p _defaultFocus = p.
Proof.
  destruct p; unfold glm.sub3, _defaultFocus, glm.splat3; simpl.
  f_equal; ring.
Qed.

(** For a non-negative bound, [sqrt] compares as the squares do. *)
Lemma sqrt_lt_sq (a b : R) : 0 <= a -> 0 <= b -> a < b * b -> sqrt a < b.
Proof.
  intros Ha Hb H. rewrite <- (sqrt_square b Hb).
  apply sqrt_lt_1; nra.
Qed.

Lemma sqrt_ge_sq (a b : R) : 0 <= b -> b * b <= a -> b <= sqrt a.
Proof.
  intros Hb H. rewrite <- (sqrt_square b Hb).
  apply sqrt_le_1; nra.
Qed.

(** ** Stationary drags *)

Lemma rotate_stationary (c : Camera) : rotate c (_oldMousePosition c) = c.
Proof. unfold rotate; now rewrite eq2_refl. Qed.

Lemma zoom_stationary (c : Camera) : zoom c (_oldMousePosition c) = c.
Proof. unfold zoom; now rewrite eq2_refl. Qed.

(** C7.  An orbit update and a zoom update whose new pointer position is
    the stored previous one return the camera as it was: position, focus,
    up vector and the cached view-projection matrix are all unchanged. *)
Theorem stationary_drag_is_noop (c : Camera) :
  let r := rotate c (_oldMousePosition c) in
  let z := zoom c (_oldMousePosition c) in
  (_position r = _position c /\ _focus r = _focus c
   /\ _upVector r = _upVector c
   /\ _viewProjectionMatrix r = _viewProjectionMatrix c)
  /\ (_position z = _position c /\ _focus z = _focus c
      /\ _upVector z = _upVector c
      /\ _viewProjectionMatrix z = _viewProjectionMatrix c)
  /\ r = c /\ z = c.
Proof.
  cbv zeta. rewrite rotate_stationary, zoom_stationary.
  repeat split; reflexivity.
Qed.

(** ** Zoom without the camera limit *)

Lemma zoom_moving (c : Camera) (newMouse : vec2) :
  glm.eq2 newMouse (_oldMousePosition c) = false ->
  _limitCameraPosition c = false ->
  _position (zoom c newMouse)
  = glm.scale3 (1 + (v2y newMouse - v2y (_oldMousePosition c)))
               (glm.sub3 (_position c) (_focus c)).
Proof.
  intros Hne Hl. unfold zoom. rewrite Hne, Hl. reflexivity.
Qed.

Lemma zoom_keeps_frame (c : Camera) (newMouse : vec2) :
  _focus (zoom c newMouse) = _focus c
  /\ _upVector (zoom c newMouse) = _upVector c
  /\ _limitCameraPosition (zoom c newMouse) = _limitCameraPosition c
  /\ _oldMousePosition (zoom c newMouse) = _oldMousePosition c
  /\ canvasSize (zoom c newMouse) = canvasSize c.
Proof.
  unfold zoom. destruct (glm.eq2 newMouse (_oldMousePosition c));
    repeat split; reflexivity.
Qed.

Lemma rotate_keeps_frame (c : Camera) (newMouse : vec2) :
  _focus (rotate c newMouse) = _focus c
  /\ _upVector (rotate c newMouse) = _upVector c
  /\ _limitCameraPosition (rotate c newMouse) = _limitCameraPosition c
  /\ _oldMousePosition (rotate c newMouse) = _oldMousePosition c
  /\ canvasSize (rotate c newMouse) = canvasSize c.
Proof.
  unfold rotate. destruct (glm.eq2 newMouse (_oldMousePosition c));
    [repeat split; reflexivity |].
  match goal with |- context [if ?b then c else _] => destruct b end;
    repeat split; reflexivity.
Qed.

(** C8.  With the limit off and the focus at the origin, a zoom drag puts
    the camera at [(1 + t) * (position - focus)], [t] being the vertical
    pointer displacement; the distance from the focus is scaled by
    [|1 + t|], which for the drag from (0, 0.5) to (0, 0.6) is 1.1. *)
Theorem zoom_unlimited_scales (c : Camera) (newMouse : vec2) :
  _limitCameraPosition c = false ->
  _focus c = _defaultFocus ->
  let t := v2y newMouse - v2y (_oldMousePosition c) in
  _position (zoom c newMouse)
  = glm.scale3 (1 + t) (glm.sub3 (_position c) (_focus c))
  /\ distanceFromFocus (zoom c newMouse)
     = Rabs (1 + t) * distanceFromFocus c
  /\ (_oldMousePosition c = mkvec2 0 (5/10) ->
      newMouse = mkvec2 0 (6/10) ->
      distanceFromFocus (zoom c newMouse) = 11/10 * distanceFromFocus c).
Proof.
  intros Hl Hf t.
  assert (Hpos : _position (zoom c newMouse)
                 = glm.scale3 (1 + t) (glm.sub3 (_position c) (_focus c))).
  { destruct (glm.eq2 newMouse (_oldMousePosition c)) eqn:E.
    - apply eq2_true in E. subst t. rewrite E.
      rewrite zoom_stationary.
      rewrite Hf, sub3_origin. apply vec3_ext; simpl; ring.
    - now apply zoom_moving. }
  assert (Hd : distanceFromFocus (zoom c newMouse)
               = Rabs (1 + t) * distanceFromFocus c).
  { unfold distanceFromFocus.
    destruct (zoom_keeps_frame c newMouse) as (-> & _).
    rewrite Hpos, Hf, !sub3_origin. apply length_scale3. }
  repeat split; try assumption.
  intros Ho Hn. rewrite Hd. subst t. rewrite Ho, Hn. simpl.
  rewrite Rabs_right; lra.
Qed.

Lemma zoom_unlimited_scales_witness :
  let c := startCamera false (mkvec2 0 (5/10)) in
  distanceFromFocus (zoom c (mkvec2 0 (6/10))) = 11/10 * distanceFromFocus c.
Proof.
  intros c.
  apply (zoom_unlimited_scales c (mkvec2 0 (6/10)) eq_refl eq_refl);
    reflexivity.
Defined.

(** ** Pointer scaling *)

(** The horizontal component is scaled as the comment of [scaledMouse]
    asks: a pixel column inside the widget lands in [-1, 1]. *)
Lemma scaledMouse_x_in_range (size mousePos : ivec2) :
  (0 < iv2x size)%Z -> (0 <= iv2x mousePos <= iv2x size)%Z ->
  -1 <= v2x (scaledMouse size mousePos) <= 1.
Proof.
  intros Hw [H0 H1]. unfold scaledMouse; simpl.
  apply IZR_lt in Hw. apply IZR_le in H0, H1.
  set (w := IZR (iv2x size)) in *. set (x := IZR (iv2x mousePos)) in *.
  assert (Hq : 0 <= x * 2 / w <= 2).
  { split.
    - apply Rmult_le_pos; [lra | left; now apply Rinv_0_lt_compat].
    - apply Rmult_le_reg_r with w; [lra |].
      unfold Rdiv. rewrite Rmult_assoc, Rinv_l; lra. }
  lra.
Qed.

(** The vertical component of a pixel row [y] is [2 y / (height - 1)]: the
    [- 1.f] sits inside the divisor. *)
Lemma scaledMouse_y (size mousePos : ivec2) :
  v2y (scaledMouse size mousePos)
  = 2 * IZR (iv2y mousePos) / (IZR (iv2y size) - 1).
Proof. unfold scaledMouse; simpl. unfold Rdiv; ring. Qed.

(** C4.  On the 800x600 widget, the pixel (400, 599) of the bottom row lies
    inside the viewport, and [scaledMouse] maps it to (0, 2): the vertical
    component is outside [-1, 1]. *)
Theorem scaledMouse_leaves_unit_square :
  let size := mkivec2 800 600 in
  let mousePos := mkivec2 400 599 in
  (0 <= iv2x mousePos <= iv2x size)%Z
  /\ (0 <= iv2y mousePos <= iv2y size)%Z
  /\ scaledMouse size mousePos = mkvec2 0 2
  /\ ~ (-1 <= v2y (scaledMouse size mousePos) <= 1).
Proof.
  cbv zeta. split; [simpl; lia |]. split; [simpl; lia |].
  assert (E : scaledMouse (mkivec2 800 600) (mkivec2 400 599) = mkvec2 0 2).
  { unfold scaledMouse; simpl. f_equal; field. }
  split; [exact E |]. rewrite E; simpl. lra.
Qed.

(** ** Readiness predicates *)

Lemma groundIsReady_iff (g : GroundObjects) :
  groundIsReady g = true <->
  _groundVBO g <> 0%Z /\ _groundProgram g <> None
  /\ _groundProgramReady g = true
  /\ _groundTexture g <> None /\ _groundTextureNormal g <> None.
Proof.
  unfold groundIsReady, nonzero, not_null, is_null.
  destruct g as [rg vbo [t|] [tn|] [p|] ready]; simpl;
    destruct (Z.eqb_spec vbo 0); destruct ready; simpl;
    intuition congruence.
Qed.

Lemma skyboxIsReady_iff (s : SkyboxObjects) :
  skyboxIsReady s = true <->
  _skyboxVBO s <> 0%Z /\ _skyboxIBO s <> 0%Z /\ _skyboxProgram s <> None
  /\ _skyboxProgramReady s = true /\ _skyboxTexture s <> 0%Z.
Proof.
  unfold skyboxIsReady, nonzero, not_null, is_null.
  destruct s as [rs vbo ibo n tex [p|] ready]; simpl;
    destruct (Z.eqb_spec vbo 0); destruct (Z.eqb_spec ibo 0);
    destruct (Z.eqb_spec tex 0); destruct ready; simpl;
    intuition congruence.
Qed.

(** What [particlesAreReady] tests: the sprite texture is not among it. *)
Lemma particlesAreReady_iff (p : ParticleObjects) :
  particlesAreReady p = true <->
  _particleVBO p <> 0%Z /\ _particleProgram p <> None
  /\ _particleProgramReady p = true.
Proof.
  unfold particlesAreReady, nonzero, not_null, is_null.
  destruct p as [d vbo t [pr|] ready n]; simpl;
    destruct (Z.eqb_spec vbo 0); destruct ready; simpl;
    intuition congruence.
Qed.

(** A ready ground or skybox draws without a null dereference. *)
Lemma drawGround_safe (r : Renderer) (gl : GL) :
  groundIsReady (ground r) = true -> drawGround r gl <> None.
Proof.
  intros H. apply groundIsReady_iff in H.
  destruct H as (_ & Hp & _ & Ht & Hn). unfold drawGround.
  destruct (_groundProgram (ground r)); [| congruence].
  destruct (_groundTexture (ground r)); [| congruence].
  destruct (_groundTextureNormal (ground r)); [| congruence].
  discriminate.
Qed.

Lemma drawSkybox_safe (r : Renderer) (gl : GL) :
  skyboxIsReady (skybox r) = true -> drawSkybox r gl <> None.
Proof.
  intros H. apply skyboxIsReady_iff in H.
  destruct H as (_ & _ & Hp & _). unfold drawSkybox.
  destruct (_skyboxProgram (skybox r)); [| congruence].
  discriminate.
Qed.

(** C2.  After a start-up in which only the particle sprite fails to load,
    and one data upload, the particle subsystem reports ready although its
    texture handle is null; ground and skybox report ready as they should,
    and the particle draw that the frame then makes dereferences the null
    texture. *)
Theorem particlesAreReady_without_texture :
  let r := fst startedWithoutSprite in
  _particleTexture (particles r) = None
  /\ particlesAreReady (particles r) = true
  /\ groundIsReady (ground r) = true
  /\ skyboxIsReady (skybox r) = true
  /\ drawParticles r (snd startedWithoutSprite) = None
  /\ paintGL r (snd startedWithoutSprite) = None.
Proof.
  cbv zeta. repeat split; reflexivity.
Qed.

(** A failed cube-map face goes unnoticed as well: the texture name is
    generated before the faces are loaded. *)
Lemma skyboxIsReady_without_face (s : SkyboxObjects) (gl : GL) :
  let assets :=
    mkAssetLoader true
      (fun file => if String.eqb file "${ASSETS}/zneg.png" then None
                   else Some (mkTexture file))
      (fun _ => true) (fun _ => true) in
  skyboxIsReady (fst (initializeSkybox assets s gl)) = true.
Proof.
  intros assets. unfold initializeSkybox, generateSkyboxBuffer, bind, genName.
  destruct (_skyboxVBO s =? 0)%Z eqn:Ev, (_skyboxIBO s =? 0)%Z eqn:Ei;
    simpl; unfold skyboxIsReady, nonzero; simpl; rewrite ?Ev, ?Ei;
    reflexivity.
Qed.

(** ** Particle stream *)

Lemma to_GLsizei_small (n : Z) :
  (0 <= n < 2^31)%Z -> to_GLsizei n = n.
Proof.
  intros H. unfold to_GLsizei.
  rewrite Z.mod_small; lia.
Qed.

Lemma size_zero_iff (data : list vec3) : size data = 0%Z <-> data = [].
Proof.
  unfold size. destruct data; simpl; split; intros; try easy; lia.
Qed.

(** C5.  With no source, or an empty one, [updateData] sets the count to
    zero, makes no OpenGL call and leaves the buffer name alone.  With a
    non-empty source it generates the buffer name if there is none, uploads
    every coordinate of the source with [GL_STREAM_DRAW], and sets the count
    to the length of the source (a length that fits [GLsizei]). *)
Theorem updateData_resync (p : ParticleObjects) (gl : GL) :
  ((_particleData p = None \/ _particleData p = Some []) ->
   updateData p gl = (set_numberOfParticles 0 p, gl)
   /\ _numberOfParticles (fst (updateData p gl)) = 0%Z
   /\ _particleVBO (fst (updateData p gl)) = _particleVBO p
   /\ snd (updateData p gl) = gl)
  /\ (forall data,
        _particleData p = Some data -> data <> [] ->
        (size data < 2^31)%Z ->
        let p' := fst (updateData p gl) in
        let gl' := snd (updateData p gl) in
        exists vbo,
          vbo <> 0%Z
          /\ _particleVBO p' = vbo
          /\ (_particleVBO p <> 0%Z -> vbo = _particleVBO p)
          /\ gl_calls gl'
             = gl_calls gl
               ++ (if (_particleVBO p =? 0)%Z then [glGenBuffers vbo] else [])
               ++ [glEnableVertexAttribArray 0;
                   glBindBuffer GL_ARRAY_BUFFER vbo;
                   glBufferData GL_ARRAY_BUFFER
                     (size data * 3 * sizeof_float)
                     (Floats (flat_map floats_of data)) GL_STREAM_DRAW;
                   glVertexAttribPointer 0 3 false]
          /\ _numberOfParticles p' = size data
          /\ _particleData p' = Some data).
Proof.
  split.
  - intros [H | H]; unfold updateData; rewrite H; simpl;
      repeat split; reflexivity.
  - intros data Hd Hne Hsz. cbv zeta.
    unfold updateData. rewrite Hd.
    destruct (size data =? 0)%Z eqn:E.
    { apply Z.eqb_eq, size_zero_iff in E. contradiction. }
    assert (Hpos : (0 <= size data)%Z) by (unfold size; lia).
    destruct gl as [calls next].
    destruct (_particleVBO p =? 0)%Z eqn:Ev.
    + exists (Zpos next). unfold bind, genName, call, ret; simpl.
      rewrite to_GLsizei_small by lia.
      apply Z.eqb_eq in Ev.
      repeat split; try easy.
      * rewrite <- !app_assoc. reflexivity.
    + exists (_particleVBO p). unfold bind, genName, call, ret; simpl.
      rewrite to_GLsizei_small by lia.
      apply Z.eqb_neq in Ev.
      repeat split; try easy.
      rewrite <- !app_assoc. reflexivity.
Qed.

Lemma updateData_resync_witness :
  let p := mkParticle (Some [mkvec3 1 2 3; mkvec3 4 5 6]) 0 None None false 0 in
  updateData (setData p None) freshGL
  = (set_numberOfParticles 0 (setData p None), freshGL)
  /\ _numberOfParticles (fst (updateData p freshGL)) = 2%Z.
Proof.
  intros p. split.
  - apply (updateData_resync (setData p None) freshGL). left; reflexivity.
  - destruct (proj2 (updateData_resync p freshGL)
                    [mkvec3 1 2 3; mkvec3 4 5 6] eq_refl)
      as (vbo & _ & _ & _ & _ & Hn & _);
      [discriminate | reflexivity | exact Hn].
Defined.

(** ** Frame orchestration *)

Lemma paintGL_recorded_eq (r : Renderer) :
  paintGL_recorded r = Some (OpClear :: expectedDraws r).
Proof.
  unfold paintGL_recorded, paintGL_on, expectedDraws, andThen, guarded,
    record, wanted; simpl.
  destruct (_renderGround (ground r) && groundIsReady (ground r));
    destruct (_renderSkybox (skybox r) && skyboxIsReady (skybox r));
    destruct (particlesAreReady (particles r)); reflexivity.
Qed.

Lemma run_call_calls (c : GLcall) (gl : GL) :
  run (call c) gl
  = Some (mkGL (gl_calls gl ++ [c]) (gl_nextName gl)).
Proof. reflexivity. Qed.

(** What each subsystem draw appends to the call sequence when it
    completes: only its own draw command counts as a draw call. *)
Lemma drawGround_draw_calls (r : Renderer) (gl gl' : GL) :
  drawGround r gl = Some gl' ->
  filter isDrawCall (gl_calls gl')
  = filter isDrawCall (gl_calls gl) ++ drawCallOf r OpGround.
Proof.
  unfold drawGround, deref, seq.
  destruct (_groundProgram (ground r)); [| discriminate].
  destruct (_groundTexture (ground r)); [| discriminate].
  destruct (_groundTextureNormal (ground r)); [| discriminate].
  rewrite !run_call_calls. intros E; injection E as <-. simpl.
  rewrite <- !app_assoc, filter_app. reflexivity.
Qed.

Lemma drawSkybox_draw_calls (r : Renderer) (gl gl' : GL) :
  drawSkybox r gl = Some gl' ->
  filter isDrawCall (gl_calls gl')
  = filter isDrawCall (gl_calls gl) ++ drawCallOf r OpSkybox.
Proof.
  unfold drawSkybox, deref, seq.
  destruct (_skyboxProgram (skybox r)); [| discriminate].
  rewrite !run_call_calls. intros E; injection E as <-. simpl.
  rewrite <- !app_assoc, filter_app. reflexivity.
Qed.

Lemma drawParticles_draw_calls (r : Renderer) (gl gl' : GL) :
  drawParticles r gl = Some gl' ->
  filter isDrawCall (gl_calls gl')
  = filter isDrawCall (gl_calls gl) ++ drawCallOf r OpParticles.
Proof.
  unfold drawParticles, deref, seq. rewrite !run_call_calls.
  destruct (_particleProgram (particles r)); [| discriminate].
  destruct (_particleTexture (particles r)); [| discriminate].
  rewrite !run_call_calls. intros E; injection E as <-. simpl.
  rewrite <- !app_assoc, filter_app. reflexivity.
Qed.

Lemma guarded_draw_calls (b : bool) (d : Draw) (calls : list GLcall)
      (gl gl' : GL) :
  (forall gl gl', d gl = Some gl' ->
     filter isDrawCall (gl_calls gl')
     = filter isDrawCall (gl_calls gl) ++ calls) ->
  guarded b d gl = Some gl' ->
  filter isDrawCall (gl_calls gl')
  = filter isDrawCall (gl_calls gl) ++ (if b then calls else []).
Proof.
  intros Hd. destruct b; simpl.
  - apply Hd.
  - intros E; injection E as <-. now rewrite app_nil_r.
Qed.

(** On the OpenGL context, a frame that completes has issued exactly the
    draw commands of the expected subsystems, in that order. *)
Lemma paintGL_draw_calls (r : Renderer) (gl gl' : GL) :
  paintGL r gl = Some gl' ->
  filter isDrawCall (gl_calls gl')
  = filter isDrawCall (gl_calls gl)
    ++ flat_map (drawCallOf r) (expectedDraws r).
Proof.
  unfold paintGL, paintGL_on, andThen. rewrite run_call_calls.
  set (gl0 := mkGL (gl_calls gl ++ [glClear]) (gl_nextName gl)).
  assert (H0 : filter isDrawCall (gl_calls gl0)
               = filter isDrawCall (gl_calls gl))
    by (simpl; rewrite filter_app; simpl; apply app_nil_r).
  destruct (guarded _ (drawGround r) gl0) as [gl1 |] eqn:E1;
    [| discriminate].
  destruct (guarded _ (drawSkybox r) gl1) as [gl2 |] eqn:E2;
    [| discriminate].
  intros E3.
  apply (guarded_draw_calls _ _ _ _ _ (drawGround_draw_calls r)) in E1.
  apply (guarded_draw_calls _ _ _ _ _ (drawSkybox_draw_calls r)) in E2.
  apply (guarded_draw_calls _ _ _ _ _ (drawParticles_draw_calls r)) in E3.
  rewrite E3, E2, E1, H0. unfold expectedDraws, wanted; simpl.
  destruct (_renderGround (ground r) && groundIsReady (ground r));
    destruct (_renderSkybox (skybox r) && skyboxIsReady (skybox r));
    destruct (particlesAreReady (particles r)); simpl;
    rewrite <- ?app_assoc, ?app_nil_r; reflexivity.
Qed.

(** What each subsystem draw does to the context: a ready ground and a
    ready skybox append their calls; the particle draw appends its calls
    when the sprite texture is there and stops at the null texture
    otherwise. *)
Lemma drawGround_ready (r : Renderer) (gl : GL) :
  groundIsReady (ground r) = true ->
  drawGround r gl
  = Some (mkGL (gl_calls gl ++ groundCalls (ground r)) (gl_nextName gl)).
Proof.
  intros H. apply groundIsReady_iff in H.
  destruct H as (_ & Hp & _ & Ht & Hn). unfold drawGround, deref, seq.
  destruct (_groundProgram (ground r)); [| congruence].
  destruct (_groundTexture (ground r)); [| congruence].
  destruct (_groundTextureNormal (ground r)); [| congruence].
  rewrite !run_call_calls. unfold groundCalls. simpl.
  rewrite <- !app_assoc. reflexivity.
Qed.

Lemma drawSkybox_ready (r : Renderer) (gl : GL) :
  skyboxIsReady (skybox r) = true ->
  drawSkybox r gl
  = Some (mkGL (gl_calls gl ++ skyboxCalls (skybox r)) (gl_nextName gl)).
Proof.
  intros H. apply skyboxIsReady_iff in H.
  destruct H as (_ & _ & Hp & _). unfold drawSkybox, deref, seq.
  destruct (_skyboxProgram (skybox r)); [| congruence].
  rewrite !run_call_calls. unfold skyboxCalls. simpl.
  rewrite <- !app_assoc. reflexivity.
Qed.

Lemma drawParticles_ready (r : Renderer) (gl : GL) :
  particlesAreReady (particles r) = true ->
  drawParticles r gl
  = match _particleTexture (particles r) with
    | Some _ =>
        Some (mkGL (gl_calls gl ++ particleCalls (particles r))
                   (gl_nextName gl))
    | None => None
    end.
Proof.
  intros H. apply particlesAreReady_iff in H.
  destruct H as (_ & Hp & _). unfold drawParticles, deref, seq.
  rewrite !run_call_calls.
  destruct (_particleProgram (particles r)); [| congruence].
  destruct (_particleTexture (particles r)); [| reflexivity].
  rewrite !run_call_calls. unfold particleCalls. simpl.
  rewrite <- !app_assoc. reflexivity.
Qed.

Lemma guarded_ready (b : bool) (d : Draw) (calls : list GLcall) (gl : GL) :
  (b = true ->
   d gl = Some (mkGL (gl_calls gl ++ calls) (gl_nextName gl))) ->
  guarded b d gl
  = Some (mkGL (gl_calls gl ++ (if b then calls else []))
               (gl_nextName gl)).
Proof.
  intros Hd. destruct b; simpl.
  - now apply Hd.
  - rewrite app_nil_r. now destruct gl.
Qed.

(** C6.  Whatever the two toggles and the three readiness states, a frame
    on the OpenGL context is the clear, then the calls of the ground draw
    exactly when the ground toggle is on and the ground is ready, then the
    calls of the skybox draw exactly when the skybox toggle is on and the
    skybox is ready, then the particle draw exactly when the particle
    subsystem is ready, whatever the toggles say; nothing else is issued.
    (The particle draw that is invoked on a ready subsystem whose sprite
    texture is null stops at the null pointer, and the frame with it.)
    Seen through the draw commands, the frame issues those of the wanted
    subsystems in the order ground, skybox, particles. *)
Theorem paintGL_draws_in_fixed_order (r : Renderer) (gl : GL) :
  let showGround := _renderGround (ground r) && groundIsReady (ground r) in
  let showSkybox := _renderSkybox (skybox r) && skyboxIsReady (skybox r) in
  let showParticles := particlesAreReady (particles r) in
  let upToSkybox :=
    [glClear]
    ++ (if showGround then groundCalls (ground r) else [])
    ++ (if showSkybox then skyboxCalls (skybox r) else []) in
  paintGL r gl
  = (if showParticles
     then match _particleTexture (particles r) with
          | Some _ =>
              Some (mkGL (gl_calls gl ++ upToSkybox
                          ++ particleCalls (particles r))
                         (gl_nextName gl))
          | None => None
          end
     else Some (mkGL (gl_calls gl ++ upToSkybox) (gl_nextName gl)))
  /\ filter isDrawCall
       (upToSkybox
        ++ (if showParticles then particleCalls (particles r) else []))
     = flat_map (drawCallOf r) (expectedDraws r).
Proof.
  cbv zeta. split.
  - unfold paintGL, paintGL_on, andThen. rewrite run_call_calls.
    rewrite (guarded_ready _ (drawGround r) (groundCalls (ground r)))
      by (intros H; apply andb_true_iff in H; destruct H as [_ H];
          apply (drawGround_ready r _ H)).
    rewrite (guarded_ready _ (drawSkybox r) (skyboxCalls (skybox r)))
      by (intros H; apply andb_true_iff in H; destruct H as [_ H];
          apply (drawSkybox_ready r _ H)).
    cbn [gl_calls gl_nextName].
    destruct (particlesAreReady (particles r)) eqn:Hp; simpl guarded.
    + rewrite (drawParticles_ready r _ Hp). cbn [gl_calls gl_nextName].
      destruct (_particleTexture (particles r)); [| reflexivity].
      rewrite <- !app_assoc. reflexivity.
    + rewrite <- !app_assoc. reflexivity.
  - unfold expectedDraws, wanted; simpl.
    destruct (_renderGround (ground r) && groundIsReady (ground r));
      destruct (_renderSkybox (skybox r) && skyboxIsReady (skybox r));
      destruct (particlesAreReady (particles r)); reflexivity.
Qed.

(** ** Zoom with the camera limit *)

(** The position a moving, limited zoom computes, step by step. *)
Lemma zoom_limited_position (c : Camera) (newMouse : vec2) :
  glm.eq2 newMouse (_oldMousePosition c) = false ->
  _limitCameraPosition c = true ->
  forall positionVector p0 p1 p2,
    positionVector = glm.sub3 (_position c) (_focus c) ->
    p0 = glm.scale3 (1 + (v2y newMouse - v2y (_oldMousePosition c)))
                    positionVector ->
    p1 = (if Rgt_b (glm.length p0) _maximumDistance
          then glm.scale3 _maximumDistance (glm.normalize positionVector)
          else p0) ->
    p2 = (if Rlt_b (glm.length p1) _minimumDistance
          then glm.scale3 _minimumDistance (glm.normalize positionVector)
          else p1) ->
    _position (zoom c newMouse)
    = set_z (glm.max (v3z p2) _minimumHeight) p2.
Proof.
  intros Hne Hl pv p0 p1 p2 -> -> -> ->.
  unfold zoom. rewrite Hne, Hl. reflexivity.
Qed.

(** The height clamp is the last step of a limited zoom: the camera ends
    at or above [_minimumHeight]. *)
Lemma zoom_limited_height (c : Camera) (newMouse : vec2) :
  glm.eq2 newMouse (_oldMousePosition c) = false ->
  _limitCameraPosition c = true ->
  _minimumHeight <= v3z (_position (zoom c newMouse)).
Proof.
  intros Hne Hl.
  rewrite (zoom_limited_position c newMouse Hne Hl _ _ _ _
             eq_refl eq_refl eq_refl eq_refl).
  simpl. apply glm_max_ge_r.
Qed.

(** C3.  A camera inside every limit (distance about 0.316, height 0.3),
    limit on, and one zoom drag from the bottom row to the top row of the
    widget (pointer from (0, 2) to (0, 0)): the camera is mirrored through
    the focus, lifted to the minimum height, and ends at (-0.1, 0, 0.1),
    closer to the focus than [_minimumDistance]. *)
Theorem zoom_limited_breaks_minimum_distance :
  let c0 := cameraAt true (mkvec2 0 0) (mkvec3 (1/10) 0 (3/10)) in
  let c := mousePressEvent c0 (mkivec2 400 599) in
  let c' := mouseMoveEvent c (mkivec2 400 0) RightButton in
  _limitCameraPosition c = true
  /\ distanceWithinLimits c
  /\ _minimumHeight <= v3z (_position c)
  /\ _position c' = mkvec3 (-1/10) 0 (1/10)
  /\ distanceFromFocus c' < _minimumDistance.
Proof.
  cbv zeta.
  set (c0 := cameraAt true (mkvec2 0 0) (mkvec3 (1/10) 0 (3/10))).
  set (c := mousePressEvent c0 (mkivec2 400 599)).
  assert (Hold : _oldMousePosition c = mkvec2 0 2).
  { unfold c, mousePressEvent, scaledMouse; simpl. f_equal; field. }
  assert (Hnew : scaledMouse (canvasSize c) (mkivec2 400 0) = mkvec2 0 0).
  { unfold scaledMouse; simpl. f_equal; field. }
  assert (Hlen : glm.dot (mkvec3 (1/10) 0 (3/10)) (mkvec3 (1/10) 0 (3/10))
                 = 1/10) by (unfold glm.dot; simpl; field).
  split; [reflexivity |]. split.
  { unfold distanceWithinLimits, distanceFromFocus. simpl.
    rewrite sub3_origin. unfold glm.length. rewrite Hlen.
    unfold _minimumDistance, _maximumDistance, _skyboxSize. split.
    - apply sqrt_ge_sq; lra.
    - left. apply sqrt_lt_sq; lra. }
  split; [simpl; unfold _minimumHeight; lra |].
  assert (Hne : glm.eq2 (mkvec2 0 0) (_oldMousePosition c) = false).
  { apply eq2_y_neq. rewrite Hold; simpl; lra. }
  assert (Hpos : _position (zoom c (mkvec2 0 0)) = mkvec3 (-1/10) 0 (1/10)).
  { rewrite (zoom_limited_position c (mkvec2 0 0) Hne eq_refl
               (mkvec3 (1/10) 0 (3/10)) (mkvec3 (-1/10) 0 (-3/10))
               (mkvec3 (-1/10) 0 (-3/10)) (mkvec3 (-1/10) 0 (-3/10))).
    - simpl. unfold set_z; simpl. f_equal.
      unfold _minimumHeight. apply glm_max_r. lra.
    - simpl. now rewrite sub3_origin.
    - rewrite Hold. unfold glm.scale3; simpl. f_equal; field.
    - rewrite Rgt_b_false; [reflexivity |].
      unfold glm.length, glm.dot, _maximumDistance, _skyboxSize; simpl.
      left. apply sqrt_lt_sq; lra.
    - rewrite Rlt_b_false; [reflexivity |].
      unfold glm.length, glm.dot, _minimumDistance; simpl.
      apply sqrt_ge_sq; lra. }
  unfold mouseMoveEvent, dragMove. rewrite Hnew.
  split; [exact Hpos |].
  unfold distanceFromFocus. simpl _position. simpl _focus.
  rewrite Hpos.
  destruct (zoom_keeps_frame c (mkvec2 0 0)) as (-> & _).
  simpl _focus. rewrite sub3_origin.
  unfold glm.length, glm.dot, _minimumDistance; simpl.
  apply sqrt_lt_sq; lra.
Qed.

(** A camera outside the limits (the limit was off while it moved) and a
    small zoom drag: the distance clamp puts it at [_maximumDistance], and
    the height clamp then lifts it beyond. *)
Lemma zoom_limited_breaks_maximum_distance :
  let c := cameraAt true (mkvec2 0 0) (mkvec3 5 0 0) in
  let c' := zoom c (mkvec2 0 (1/10)) in
  _position c' = mkvec3 (49/10) 0 (1/10)
  /\ _maximumDistance < distanceFromFocus c'.
Proof.
  cbv zeta.
  set (c := cameraAt true (mkvec2 0 0) (mkvec3 5 0 0)).
  assert (Hne : glm.eq2 (mkvec2 0 (1/10)) (_oldMousePosition c) = false)
    by (apply eq2_y_neq; simpl; lra).
  assert (Hn : glm.normalize (mkvec3 5 0 0) = mkvec3 1 0 0).
  { unfold glm.normalize, glm.inversesqrt, glm.dot, glm.scale3; simpl.
    replace (5 * 5 + 0 * 0 + 0 * 0) with (5 * 5) by ring.
    rewrite sqrt_square by lra. f_equal; field. }
  assert (Hpos : _position (zoom c (mkvec2 0 (1/10)))
                 = mkvec3 (49/10) 0 (1/10)).
  { rewrite (zoom_limited_position c (mkvec2 0 (1/10)) Hne eq_refl
               (mkvec3 5 0 0) (mkvec3 (55/10) 0 0)
               (mkvec3 (49/10) 0 0) (mkvec3 (49/10) 0 0)).
    - unfold set_z; simpl. f_equal. unfold _minimumHeight.
      apply glm_max_r; lra.
    - simpl. now rewrite sub3_origin.
    - unfold glm.scale3; simpl. f_equal; field.
    - rewrite Rgt_b_true.
      + rewrite Hn. unfold glm.scale3, _maximumDistance, _skyboxSize; simpl.
        f_equal; field.
      + unfold glm.length, glm.dot, _maximumDistance, _skyboxSize; simpl.
        apply Rlt_le_trans with (55/10); [lra |]. apply sqrt_ge_sq; lra.
    - rewrite Rlt_b_false; [reflexivity |].
      unfold glm.length, glm.dot, _minimumDistance; simpl.
      apply sqrt_ge_sq; lra. }
  split; [exact Hpos |].
  unfold distanceFromFocus. rewrite Hpos.
  destruct (zoom_keeps_frame c (mkvec2 0 (1/10))) as (-> & _).
  simpl _focus. rewrite sub3_origin.
  unfold glm.length, glm.dot, _maximumDistance, _skyboxSize; simpl.
  apply Rlt_le_trans with (4901/1000); [lra |]. apply sqrt_ge_sq; lra.
Qed.

(** ** Quaternions *)

Lemma qnorm2_qmul (p q : quat) :
  qnorm2 (glm.qmul p q) = qnorm2 p * qnorm2 q.
Proof. unfold qnorm2, glm.qmul; simpl; ring. Qed.

Lemma qnorm2_angleAxis (a : R) (v : vec3) :
  qnorm2 (glm.angleAxis a v)
  = 1 + (glm.dot v v - 1)
        * (sin (glm.radians a * (1/2)) * sin (glm.radians a * (1/2))).
Proof.
  unfold qnorm2, glm.angleAxis, glm.dot; simpl.
  set (h := glm.radians a * (1/2)).
  pose proof (sin2_cos2 h) as H. unfold Rsqr in H.
  replace (cos h * cos h) with (1 - sin h * sin h) by lra.
  ring.
Qed.

(** The squared length of a rotated vector, for any quaternion: for a unit
    quaternion the correction term vanishes. *)
Lemma dot_qrot (q : quat) (v : vec3) :
  glm.dot (glm.qrot q v) (glm.qrot q v)
  = glm.dot v v
    + (qnorm2 q - 1)
      * (4 * (glm.dot (qvec q) (qvec q) * glm.dot v v
              - glm.dot (qvec q) v * glm.dot (qvec q) v)).
Proof.
  unfold glm.qrot, glm.dot, qnorm2, qvec, glm.add3, glm.scale3, glm.cross;
    simpl; ring.
Qed.

Lemma qrot_unit_length (q : quat) (v : vec3) :
  qnorm2 q = 1 -> glm.length (glm.qrot q v) = glm.length v.
Proof.
  intros H. unfold glm.length. rewrite dot_qrot, H. f_equal. ring.
Qed.

Lemma normalize_unit (v : vec3) :
  glm.dot v v <> 0 -> glm.dot (glm.normalize v) (glm.normalize v) = 1.
Proof.
  intros H. pose proof (dot_self_nonneg v) as Hp.
  assert (Hs : 0 < sqrt (glm.dot v v)) by (apply sqrt_lt_R0; lra).
  unfold glm.normalize, glm.inversesqrt.
  replace (glm.dot (glm.scale3 (1 / sqrt (glm.dot v v)) v)
                   (glm.scale3 (1 / sqrt (glm.dot v v)) v))
    with (glm.dot v v / (sqrt (glm.dot v v) * sqrt (glm.dot v v))).
  - rewrite sqrt_sqrt by lra. field; exact H.
  - unfold glm.dot, glm.scale3 in *; simpl in *. field; lra.
Qed.

Lemma normalize_defaultUp : glm.normalize _defaultUp = _defaultUp.
Proof.
  unfold glm.normalize, glm.inversesqrt, glm.dot, glm.scale3, _defaultUp;
    simpl.
  replace (0 * 0 + 0 * 0 + 1 * 1) with 1 by ring.
  rewrite sqrt_1. f_equal; field.
Qed.

(** ** Orbit: the guard and the applied update *)

Lemma guard_closeToTop (c : Camera) (newMouse : vec2) :
  Rlt_b (currentTilt c) _minimumTilt
  && Rlt_b (v2y (orbitAngles (_oldMousePosition c) newMouse)) 0 = true
  <-> closeToTop c newMouse.
Proof.
  unfold closeToTop. rewrite andb_true_iff, !Rlt_b_iff. reflexivity.
Qed.

Lemma guard_closeToBottom (c : Camera) (newMouse : vec2) :
  Rgt_b (currentTilt c) _maximumTilt
  && Rgt_b (v2y (orbitAngles (_oldMousePosition c) newMouse)) 0 = true
  <-> closeToBottom c newMouse.
Proof.
  unfold closeToBottom, Rgt_b. rewrite andb_true_iff, !Rlt_b_iff.
  reflexivity.
Qed.

(** A refused drag changes nothing: neither the yaw nor the tilt is
    applied, and the matrix is not recomputed. *)
Lemma rotate_refused (c : Camera) (newMouse : vec2) :
  closeToTop c newMouse \/ closeToBottom c newMouse ->
  rotate c newMouse = c.
Proof.
  intros H. unfold rotate.
  destruct (glm.eq2 newMouse (_oldMousePosition c)); [reflexivity |].
  destruct H as [H | H].
  - apply guard_closeToTop in H. rewrite H, orb_true_r. reflexivity.
  - apply guard_closeToBottom in H. rewrite H. reflexivity.
Qed.

(** A moving drag that the guard lets through applies yaw and tilt, then
    the height clamp if the limit is on. *)
Lemma rotate_applied (c : Camera) (newMouse : vec2) :
  glm.eq2 newMouse (_oldMousePosition c) = false ->
  ~ closeToTop c newMouse -> ~ closeToBottom c newMouse ->
  forall phi rotationQuat tiltQuat p,
    phi = orbitAngles (_oldMousePosition c) newMouse ->
    rotationQuat = glm.angleAxis (v2x phi) (_upVector c) ->
    tiltQuat = glm.angleAxis (v2y phi)
                 (glm.normalize (glm.cross (_upVector c) (_position c))) ->
    p = glm.qrot (glm.qmul tiltQuat rotationQuat) (_position c) ->
    _position (rotate c newMouse)
    = (if _limitCameraPosition c
       then set_z (glm.max (v3z p) _minimumHeight) p else p).
Proof.
  intros Hne Ht Hb phi rq tq p -> -> -> ->.
  rewrite <- guard_closeToTop in Ht. rewrite <- guard_closeToBottom in Hb.
  apply not_true_is_false in Ht, Hb.
  unfold rotate. rewrite Hne, Ht, Hb. simpl.
  destruct (_limitCameraPosition c); reflexivity.
Qed.

(** The three outcomes of [rotate]. *)
Lemma rotate_cases (c : Camera) (newMouse : vec2) :
  rotate c newMouse = c
  \/ (glm.eq2 newMouse (_oldMousePosition c) = false
      /\ ~ closeToTop c newMouse /\ ~ closeToBottom c newMouse).
Proof.
  destruct (glm.eq2 newMouse (_oldMousePosition c)) eqn:E.
  - left. unfold rotate. now rewrite E.
  - destruct (Rlt_b (currentTilt c) _minimumTilt
              && Rlt_b (v2y (orbitAngles (_oldMousePosition c) newMouse)) 0)
      eqn:Et.
    { left. apply rotate_refused. left. now apply guard_closeToTop. }
    destruct (Rgt_b (currentTilt c) _maximumTilt
              && Rgt_b (v2y (orbitAngles (_oldMousePosition c) newMouse)) 0)
      eqn:Eb.
    { left. apply rotate_refused. right. now apply guard_closeToBottom. }
    right. split; [reflexivity |]. split.
    + rewrite <- guard_closeToTop. congruence.
    + rewrite <- guard_closeToBottom. congruence.
Qed.

(** ** The saturated yaw drag *)

Lemma asin_minus_1 : asin (-1) = - (PI / 2).
Proof.
  replace (-1) with (- (1)) by ring. rewrite asin_opp, asin_1. reflexivity.
Qed.

Lemma orbitAngles_full_step :
  orbitAngles (mkvec2 0 0) (mkvec2 (1/10) 0) = mkvec2 (- PI) 0.
Proof.
  unfold orbitAngles, glm.scale2, glm.asin2, glm.max2, glm.min2, glm.sub2,
    glm.splat2, _rotationalFactor; simpl.
  replace ((0 - 1/10) * 60) with (-6) by field.
  replace ((0 - 0) * 60) with 0 by ring.
  rewrite (glm_min_l (-6) 1) by lra. rewrite (glm_max_r (-6) (-1)) by lra.
  rewrite (glm_min_l 0 1) by lra. rewrite (glm_max_l 0 (-1)) by lra.
  rewrite asin_minus_1, asin_0. f_equal; field.
Qed.

Lemma angleAxis_zero (v : vec3) : glm.angleAxis 0 v = mkquat 1 0 0 0.
Proof.
  unfold glm.angleAxis, glm.radians.
  replace (0 * (glm.pi / 180) * (1/2)) with 0 by (unfold Rdiv; ring).
  rewrite sin_0, cos_0. f_equal; ring.
Qed.

Lemma qmul_one_l (q : quat) : glm.qmul (mkquat 1 0 0 0) q = q.
Proof. destruct q; unfold glm.qmul; simpl. f_equal; ring. Qed.

Lemma qmul_one_r (q : quat) : glm.qmul q (mkquat 1 0 0 0) = q.
Proof. destruct q; unfold glm.qmul; simpl. f_equal; ring. Qed.

(** The yaw quaternion turns a vector about the up axis by the angle it
    was given, read in degrees. *)
Lemma qrot_about_up (h : R) (v : vec3) :
  glm.qrot (mkquat (cos h) 0 0 (sin h)) v = rotateAboutUp (2 * h) v.
Proof.
  unfold rotateAboutUp. rewrite sin_2a, cos_2a_sin.
  unfold glm.qrot, glm.add3, glm.scale3, glm.cross; simpl.
  f_equal; ring.
Qed.

Lemma yaw_is_rotation (a : R) (v : vec3) :
  glm.qrot (glm.angleAxis a _defaultUp) v = rotateAboutUp (glm.radians a) v.
Proof.
  replace (glm.angleAxis a _defaultUp)
    with (mkquat (cos (glm.radians a * (1/2))) 0 0
                 (sin (glm.radians a * (1/2))))
    by (unfold glm.angleAxis, _defaultUp; simpl; f_equal; ring).
  rewrite qrot_about_up. f_equal. field.
Qed.

Lemma radians_minus_PI : glm.radians (- PI) = - (PI * PI / 180).
Proof. unfold glm.radians, glm.pi. field. Qed.

(** [PI] degrees are a small angle. *)
Lemma PI_degrees_bounds : 0 < PI * PI / 180 < PI / 2.
Proof.
  pose proof PI_RGT_0 as H0. pose proof PI_4 as H4. split; nra.
Qed.

(** Where the saturated yaw drag takes the camera from the start
    position. *)
Lemma saturated_yaw_position (c : Camera) :
  _position c = _defaultPosition ->
  _upVector c = _defaultUp ->
  _oldMousePosition c = mkvec2 0 0 ->
  _position (rotate c (mkvec2 (1/10) 0))
  = mkvec3 (- cos (PI * PI / 180)) (sin (PI * PI / 180)) 1.
Proof.
  intros Hp Hu Ho. pose proof PI_RGT_0 as Hpi.
  assert (Hne : glm.eq2 (mkvec2 (1/10) 0) (_oldMousePosition c) = false).
  { apply eq2_x_neq. rewrite Ho; simpl; lra. }
  rewrite (rotate_applied c (mkvec2 (1/10) 0) Hne) with
    (phi := mkvec2 (- PI) 0)
    (rotationQuat := glm.angleAxis (- PI) _defaultUp)
    (tiltQuat := mkquat 1 0 0 0)
    (p := mkvec3 (- cos (PI * PI / 180)) (sin (PI * PI / 180)) 1).
  - unfold set_z; simpl. rewrite glm_max_l by (unfold _minimumHeight; lra).
    destruct (_limitCameraPosition c); reflexivity.
  - unfold closeToTop. rewrite Ho, orbitAngles_full_step; simpl. lra.
  - unfold closeToBottom. rewrite Ho, orbitAngles_full_step; simpl. lra.
  - rewrite Ho. symmetry. apply orbitAngles_full_step.
  - rewrite Hu. reflexivity.
  - symmetry. apply angleAxis_zero.
  - rewrite qmul_one_l, Hp, yaw_is_rotation, radians_minus_PI.
    unfold rotateAboutUp, _defaultPosition; simpl.
    rewrite cos_neg, sin_neg. f_equal; ring.
Qed.

(** The drag of C9 from the start pose.  The yaw angle has the value
    [- PI], and a rotation by [PI] radians about the up axis, in either
    sense, would take the camera to (1, 0, 1).  The angle is handed to
    [glm::angleAxis], which reads it in degrees: the camera does not get
    there, it stays on the side of the focus where it started. *)
Lemma orbit_drag_is_no_half_turn :
  let c := startCamera true (mkvec2 0 0) in
  let newMouse := mkvec2 (1/10) 0 in
  let c' := rotate c newMouse in
  v2x (orbitAngles (_oldMousePosition c) newMouse) = - PI
  /\ rotateAboutUp PI (_position c) = mkvec3 1 0 1
  /\ rotateAboutUp (- PI) (_position c) = mkvec3 1 0 1
  /\ v3x (_position c') < 0
  /\ _position c' <> rotateAboutUp PI (_position c)
  /\ _position c' <> rotateAboutUp (- PI) (_position c).
Proof.
  cbv zeta. set (c := startCamera true (mkvec2 0 0)).
  assert (Hpos := saturated_yaw_position c eq_refl eq_refl eq_refl).
  assert (H1 : rotateAboutUp PI (_position c) = mkvec3 1 0 1).
  { unfold rotateAboutUp; simpl. rewrite cos_PI, sin_PI. f_equal; ring. }
  assert (H2 : rotateAboutUp (- PI) (_position c) = mkvec3 1 0 1).
  { unfold rotateAboutUp; simpl. rewrite cos_neg, sin_neg, cos_PI, sin_PI.
    f_equal; ring. }
  assert (Hx : v3x (_position (rotate c (mkvec2 (1/10) 0))) < 0).
  { rewrite Hpos; simpl. destruct PI_degrees_bounds as [Hlo Hhi].
    assert (0 < cos (PI * PI / 180)) by (apply cos_gt_0; lra). lra. }
  assert (Hne : _position (rotate c (mkvec2 (1/10) 0)) <> mkvec3 1 0 1).
  { intros E. rewrite E in Hx. simpl in Hx. lra. }
  split; [| split; [exact H1 | split; [exact H2 | split; [exact Hx |]]]].
  - simpl _oldMousePosition. rewrite orbitAngles_full_step. reflexivity.
  - rewrite H1, H2. split; exact Hne.
Qed.

(** C9, as the code has it.  From the start pose, the drag from (0, 0) to
    (0.1, 0) is clamped to a full step: the yaw angle has the value
    [- PI], of magnitude [2 * asin 1 = PI], and the tilt quaternion is the
    identity.  [glm::angleAxis] reads the angle in degrees, so the update
    is a pure rotation about the up axis by [PI] degrees, that is
    [PI * PI / 180] radians, clockwise seen from above; the camera lands on
    (- cos (PI * PI / 180), sin (PI * PI / 180), 1) and keeps its
    distance. *)
Theorem orbit_saturated_yaw_scenario (c : Camera) :
  _position c = _defaultPosition ->
  _focus c = _defaultFocus ->
  _upVector c = _defaultUp ->
  _oldMousePosition c = mkvec2 0 0 ->
  let newMouse := mkvec2 (1/10) 0 in
  let phi := orbitAngles (_oldMousePosition c) newMouse in
  let tiltAxis := glm.normalize (glm.cross (_upVector c) (_position c)) in
  let c' := rotate c newMouse in
  v2x phi = - PI
  /\ Rabs (v2x phi) = 2 * asin (glm.max (glm.min 6 1) (-1))
  /\ Rabs (v2x phi) = PI
  /\ glm.radians (v2x phi) = - (PI * PI / 180)
  /\ (forall v, glm.qrot (glm.angleAxis (v2x phi) (_upVector c)) v
                = rotateAboutUp (- (PI * PI / 180)) v)
  /\ v2y phi = 0
  /\ glm.angleAxis (v2y phi) tiltAxis = mkquat 1 0 0 0
  /\ _position c' = rotateAboutUp (- (PI * PI / 180)) (_position c)
  /\ _position c'
     = mkvec3 (- cos (PI * PI / 180)) (sin (PI * PI / 180)) 1
  /\ glm.length (_position c') = glm.length (_position c).
Proof.
  intros Hp Hf Hu Ho. cbv zeta.
  rewrite (saturated_yaw_position c Hp Hu Ho).
  rewrite Ho, orbitAngles_full_step, Hu, Hp. simpl v2x. simpl v2y.
  pose proof PI_RGT_0 as Hpi.
  split; [reflexivity |]. repeat split.
  - rewrite (glm_min_r 6 1) by lra. rewrite (glm_max_l 1 (-1)) by lra.
    rewrite asin_1, Rabs_left by lra. field.
  - rewrite Rabs_left by lra. ring.
  - apply radians_minus_PI.
  - intros v. rewrite yaw_is_rotation, radians_minus_PI. reflexivity.
  - apply angleAxis_zero.
  - unfold rotateAboutUp, _defaultPosition; simpl.
    rewrite cos_neg, sin_neg. f_equal; ring.
  - unfold glm.length, glm.dot, _defaultPosition; simpl. f_equal.
    pose proof (sin2_cos2 (PI * PI / 180)) as H. unfold Rsqr in H. lra.
Qed.

Lemma orbit_saturated_yaw_scenario_witness :
  _position (rotate (startCamera true (mkvec2 0 0)) (mkvec2 (1/10) 0))
  = mkvec3 (- cos (PI * PI / 180)) (sin (PI * PI / 180)) 1.
Proof.
  apply (orbit_saturated_yaw_scenario (startCamera true (mkvec2 0 0))
           eq_refl eq_refl eq_refl eq_refl).
Defined.

(** ** Tilt *)

(** In the standard frame the tilt is the polar angle of the position. *)
Lemma currentTilt_standard (c : Camera) :
  _upVector c = _defaultUp ->
  currentTilt c = acos (v3z (_position c) / glm.length (_position c)).
Proof.
  intros Hu. unfold currentTilt. rewrite Hu, normalize_defaultUp.
  f_equal. unfold glm.normalize, glm.inversesqrt, glm.length, _defaultUp.
  unfold glm.dot at 1; simpl. unfold Rdiv. ring.
Qed.

Lemma acos_above_horizon (x : R) : 0 < x -> acos x < PI / 2.
Proof.
  intros Hx. rewrite acos_atan by exact Hx.
  apply atan_bound.
Qed.

(** A camera above the ground plane has a tilt below a right angle, hence
    below [_maximumTilt]. *)
Lemma tilt_above_ground (c : Camera) :
  _upVector c = _defaultUp ->
  0 < v3z (_position c) ->
  currentTilt c < _maximumTilt.
Proof.
  intros Hu Hz. rewrite (currentTilt_standard c Hu).
  assert (Hd : 0 < glm.dot (_position c) (_position c))
    by (unfold glm.dot; nra).
  assert (Hl : 0 < glm.length (_position c))
    by (apply sqrt_lt_R0; exact Hd).
  assert (Hq : 0 < v3z (_position c) / glm.length (_position c))
    by (apply Rdiv_lt_0_compat; assumption).
  pose proof (acos_above_horizon _ Hq) as H.
  pose proof PI2_1 as Hpi.
  unfold _maximumTilt, _minimumTilt, glm.pi. lra.
Qed.

(** With the limit on, an orbit update either changes nothing or leaves
    the camera at or above [_minimumHeight]. *)
Lemma rotate_limited_height (c : Camera) (newMouse : vec2) :
  _limitCameraPosition c = true ->
  rotate c newMouse = c
  \/ _minimumHeight <= v3z (_position (rotate c newMouse)).
Proof.
  intros Hl. destruct (rotate_cases c newMouse) as [H | (Hne & Ht & Hb)].
  - now left.
  - right.
    rewrite (rotate_applied c newMouse Hne Ht Hb _ _ _ _
               eq_refl eq_refl eq_refl eq_refl).
    rewrite Hl. simpl. apply glm_max_ge_r.
Qed.

Lemma dragMove_tilt (m : vec2) (c1 : Camera) :
  currentTilt (set_oldMousePosition m c1) = currentTilt c1.
Proof. reflexivity. Qed.

(** One orbit drag keeps the frame, the limit flag and the upper tilt
    bound. *)
Lemma orbit_step_invariant (c : Camera) (newMouse : vec2) :
  standardFrame c -> _limitCameraPosition c = true ->
  currentTilt c <= _maximumTilt ->
  let c' := dragMove c newMouse LeftButton in
  standardFrame c' /\ _limitCameraPosition c' = true
  /\ currentTilt c' <= _maximumTilt.
Proof.
  intros [Hf Hu] Hl Ht. cbv zeta. unfold dragMove.
  destruct (rotate_keeps_frame c newMouse) as (Ef & Eu & El & _).
  split; [split; simpl; congruence |]. split; [simpl; congruence |].
  rewrite dragMove_tilt.
  destruct (rotate_limited_height c newMouse Hl) as [E | Hz].
  - rewrite E. exact Ht.
  - left. apply tilt_above_ground; [congruence |].
    unfold _minimumHeight in Hz. lra.
Qed.

Lemma orbit_run_invariant (path : list vec2) : forall c,
  standardFrame c -> _limitCameraPosition c = true ->
  currentTilt c <= _maximumTilt ->
  let c' := drags LeftButton c path in
  standardFrame c' /\ _limitCameraPosition c' = true
  /\ currentTilt c' <= _maximumTilt.
Proof.
  induction path as [| m path IH]; intros c Hf Hl Ht; simpl.
  - auto.
  - destruct (orbit_step_invariant c m Hf Hl Ht) as (Hf' & Hl' & Ht').
    apply IH; assumption.
Qed.

(** C1.  Limit on, standard frame, tilt within the limits at the start:
    after every run of orbit drags the tilt is still at most
    [_maximumTilt] (no lower bound is claimed), and a moving drag from such
    a pose is never refused: yaw and tilt are applied in full, then the
    height clamp.  The guard refuses a drag whole, yaw and tilt alike, only
    from a pose already outside the limits: tilt below [_minimumTilt] and a
    drag that tilts further up, or tilt above [_maximumTilt] and a drag that
    tilts further down. *)
Theorem orbit_tilt_upper_bound_and_guard (c : Camera) (path : list vec2) :
  standardFrame c ->
  _limitCameraPosition c = true ->
  tiltWithinLimits c ->
  currentTilt (drags LeftButton c path) <= _maximumTilt
  /\ (forall newMouse,
        glm.eq2 newMouse (_oldMousePosition c) = false ->
        let phi := orbitAngles (_oldMousePosition c) newMouse in
        let rotationQuat := glm.angleAxis (v2x phi) (_upVector c) in
        let tiltQuat :=
          glm.angleAxis (v2y phi)
            (glm.normalize (glm.cross (_upVector c) (_position c))) in
        let p := glm.qrot (glm.qmul tiltQuat rotationQuat) (_position c) in
        _position (rotate c newMouse)
        = set_z (glm.max (v3z p) _minimumHeight) p)
  /\ (forall c2 newMouse,
        closeToTop c2 newMouse \/ closeToBottom c2 newMouse ->
        rotate c2 newMouse = c2).
Proof.
  intros Hf Hl [Hlo Hhi]. split; [| split].
  - apply (orbit_run_invariant path c Hf Hl Hhi).
  - intros m Hne. cbv zeta.
    assert (Hnt : ~ closeToTop c m) by (unfold closeToTop; lra).
    assert (Hnb : ~ closeToBottom c m) by (unfold closeToBottom; lra).
    rewrite (rotate_applied c m Hne Hnt Hnb _ _ _ _
               eq_refl eq_refl eq_refl eq_refl).
    now rewrite Hl.
  - intros c2 m. apply rotate_refused.
Qed.

(** The start pose has a tilt of 45 degrees, inside the limits. *)
Lemma startCamera_tilt (limit : bool) (oldMouse : vec2) :
  currentTilt (startCamera limit oldMouse) = PI / 4.
Proof.
  rewrite currentTilt_standard by reflexivity.
  unfold glm.length, glm.dot; simpl.
  replace (-1 * -1 + 0 * 0 + 1 * 1) with 2 by ring.
  replace (1 / sqrt 2) with (/ sqrt 2) by (unfold Rdiv; ring).
  apply acos_inv_sqrt2.
Qed.

Lemma startCamera_tiltWithinLimits (limit : bool) (oldMouse : vec2) :
  tiltWithinLimits (startCamera limit oldMouse).
Proof.
  unfold tiltWithinLimits. rewrite startCamera_tilt.
  pose proof PI2_3_2 as H. unfold _maximumTilt, _minimumTilt, glm.pi.
  lra.
Qed.

Lemma orbit_tilt_upper_bound_and_guard_witness :
  currentTilt (drags LeftButton (startCamera true (mkvec2 0 0))
                     [mkvec2 0 (1/156); mkvec2 (1/10) 0])
  <= _maximumTilt.
Proof.
  apply (orbit_tilt_upper_bound_and_guard
           (startCamera true (mkvec2 0 0))
           [mkvec2 0 (1/156); mkvec2 (1/10) 0]).
  - split; reflexivity.
  - reflexivity.
  - apply startCamera_tiltWithinLimits.
Defined.

(** ** One drag from inside the limits to below the minimum tilt *)

(** A camera on the unit circle of the plane y = 0, at the polar angle
    [a] from the up axis, on the side of the start position. *)
Lemma polar_tilt (a : R) (c : Camera) :
  0 <= a <= PI ->
  _upVector c = _defaultUp ->
  _position c = mkvec3 (- sin a) 0 (cos a) ->
  currentTilt c = a.
Proof.
  intros Ha Hu Hp. rewrite (currentTilt_standard c Hu), Hp.
  unfold glm.length, glm.dot; simpl.
  replace (- sin a * - sin a + 0 * 0 + cos a * cos a) with 1
    by (pose proof (sin2_cos2 a) as H; unfold Rsqr in H; lra).
  rewrite sqrt_1. replace (cos a / 1) with (cos a) by field.
  apply acos_cos. exact Ha.
Qed.

Lemma tiltAxis_polar (a : R) :
  0 < sin a ->
  glm.normalize (glm.cross _defaultUp (mkvec3 (- sin a) 0 (cos a)))
  = mkvec3 0 (-1) 0.
Proof.
  intros Hs.
  replace (glm.cross _defaultUp (mkvec3 (- sin a) 0 (cos a)))
    with (mkvec3 0 (- sin a) 0)
    by (unfold glm.cross, _defaultUp; simpl; f_equal; ring).
  unfold glm.normalize, glm.inversesqrt, glm.dot, glm.scale3; simpl.
  replace (0 * 0 + - sin a * - sin a + 0 * 0) with (sin a * sin a) by ring.
  rewrite sqrt_square by lra. f_equal; field; lra.
Qed.

(** The tilt quaternion about that axis moves the camera along the
    circle. *)
Lemma qrot_polar_tilt (h a : R) :
  glm.qrot (mkquat (cos h) 0 (- sin h) 0) (mkvec3 (- sin a) 0 (cos a))
  = mkvec3 (- sin (a + 2 * h)) 0 (cos (a + 2 * h)).
Proof.
  rewrite sin_plus, cos_plus, sin_2a, cos_2a_sin.
  unfold glm.qrot, glm.add3, glm.scale3, glm.cross; simpl.
  f_equal; ring.
Qed.

Lemma orbitAngles_towards_pole :
  orbitAngles (mkvec2 0 0) (mkvec2 0 (1/1200))
  = mkvec2 0 (asin (-1/20) * 2).
Proof.
  unfold orbitAngles, glm.scale2, glm.asin2, glm.max2, glm.min2, glm.sub2,
    glm.splat2, _rotationalFactor; simpl.
  replace ((0 - 1/1200) * 60) with (-1/20) by field.
  replace ((0 - 0) * 60) with 0 by ring.
  rewrite (glm_min_l (-1/20) 1) by lra.
  rewrite (glm_max_l (-1/20) (-1)) by lra.
  rewrite (glm_min_l 0 1) by lra. rewrite (glm_max_l 0 (-1)) by lra.
  rewrite asin_0. f_equal; ring.
Qed.

(** The tilt step of that drag, in radians: between 1/600 and 16/180,
    towards the pole. *)
Lemma tilt_step_bounds :
  - (16/180) <= glm.radians (asin (-1/20) * 2) < - (1/600).
Proof.
  replace (-1/20) with (- (1/20)) by field. rewrite asin_opp.
  set (u := asin (1/20)).
  assert (Hsin : sin u = 1/20) by (apply sin_asin; lra).
  destruct (asin_bound (1/20)) as [Hlo Hhi]. fold u in Hlo, Hhi.
  pose proof PI_RGT_0 as Hpi. pose proof PI_4 as H4.
  pose proof PI2_3_2 as H3.
  assert (Hu0 : 0 < u).
  { destruct (Rlt_dec 0 u) as [H | H]; [exact H | exfalso].
    apply Rnot_lt_le in H.
    assert (Hs : 0 <= sin (- u)) by (apply sin_ge_0; lra).
    rewrite sin_neg in Hs. lra. }
  pose proof (sin_lt_x u Hu0) as Hlt.
  unfold glm.radians, glm.pi. split; nra.
Qed.

(** A pose of tilt 0.101, inside the limits, limit on, and one orbit drag
    from (0, 0) to (0, 1/1200): the guard sees a tilt that is not below
    [_minimumTilt] and lets the drag through; the tilt step of
    [2 * asin (1/20)] degrees towards the pole is applied in full and
    leaves the camera with a tilt below [_minimumTilt]. *)
Lemma orbit_drag_crosses_minimum_tilt :
  let a := 101/1000 in
  let c := cameraAt true (mkvec2 0 0) (mkvec3 (- sin a) 0 (cos a)) in
  let newMouse := mkvec2 0 (1/1200) in
  let phi := orbitAngles (_oldMousePosition c) newMouse in
  let b := a + glm.radians (v2y phi) in
  let c' := drags LeftButton c [newMouse] in
  standardFrame c
  /\ _limitCameraPosition c = true
  /\ currentTilt c = a
  /\ tiltWithinLimits c
  /\ phi = mkvec2 0 (asin (-1/20) * 2)
  /\ ~ closeToTop c newMouse
  /\ _position c' = mkvec3 (- sin b) 0 (cos b)
  /\ currentTilt c' = b
  /\ currentTilt c' < _minimumTilt
  /\ ~ tiltWithinLimits c'.
Proof.
  cbv zeta. set (a := 101/1000). set (m := mkvec2 0 (1/1200)).
  set (c := cameraAt true (mkvec2 0 0) (mkvec3 (- sin a) 0 (cos a))).
  pose proof PI_RGT_0 as Hpi. pose proof PI2_3_2 as H3.
  assert (Ha : 0 <= a <= PI) by (unfold a; lra).
  assert (Hsa : 0 < sin a) by (apply sin_gt_0; unfold a; lra).
  assert (Htilt : currentTilt c = a)
    by (apply polar_tilt; [exact Ha | reflexivity | reflexivity]).
  assert (Hin : tiltWithinLimits c).
  { unfold tiltWithinLimits. rewrite Htilt.
    unfold _maximumTilt, _minimumTilt, glm.pi, a. lra. }
  assert (Hphi : orbitAngles (_oldMousePosition c) m
                 = mkvec2 0 (asin (-1/20) * 2))
    by apply orbitAngles_towards_pole.
  rewrite Hphi. simpl v2y.
  pose proof tilt_step_bounds as [Hlo Hhi].
  set (th := glm.radians (asin (-1/20) * 2)) in *.
  assert (Hne : glm.eq2 m (_oldMousePosition c) = false)
    by (apply eq2_y_neq; simpl; lra).
  assert (Hnt : ~ closeToTop c m)
    by (unfold closeToTop; rewrite Htilt; unfold _minimumTilt, a; lra).
  assert (Hnb : ~ closeToBottom c m)
    by (unfold closeToBottom; destruct Hin; lra).
  assert (Hcos : 1/2 <= cos (a + th)).
  { rewrite <- cos_PI3. apply cos_decr_1; unfold a; lra. }
  assert (Hpos : _position (rotate c m)
                 = mkvec3 (- sin (a + th)) 0 (cos (a + th))).
  { rewrite (rotate_applied c m Hne Hnt Hnb) with
      (phi := mkvec2 0 (asin (-1/20) * 2))
      (rotationQuat := mkquat 1 0 0 0)
      (tiltQuat := mkquat (cos (th * (1/2))) 0 (- sin (th * (1/2))) 0)
      (p := mkvec3 (- sin (a + th)) 0 (cos (a + th))).
    - unfold set_z; simpl.
      rewrite glm_max_l by (unfold _minimumHeight; lra). reflexivity.
    - symmetry. exact Hphi.
    - symmetry. apply angleAxis_zero.
    - simpl _upVector. simpl _position. rewrite (tiltAxis_polar a Hsa).
      unfold glm.angleAxis; simpl. fold th. f_equal; ring.
    - rewrite qmul_one_r. simpl _position. rewrite qrot_polar_tilt.
      replace (a + 2 * (th * (1/2))) with (a + th) by field.
      reflexivity. }
  assert (Htilt' : currentTilt (rotate c m) = a + th).
  { apply polar_tilt; [unfold a; lra | | exact Hpos].
    destruct (rotate_keeps_frame c m) as (_ & -> & _). reflexivity. }
  split; [split; reflexivity |]. split; [reflexivity |].
  split; [exact Htilt |]. split; [exact Hin |].
  split; [reflexivity |]. split; [exact Hnt |].
  simpl drags. unfold dragMove. rewrite dragMove_tilt.
  split; [exact Hpos |]. split; [exact Htilt' |].
  split; [rewrite Htilt'; unfold _minimumTilt, a; lra |].
  unfold tiltWithinLimits. rewrite dragMove_tilt, Htilt'.
  unfold _minimumTilt, a. lra.
Qed.

(** ** Position and focus *)

Lemma defaultUp_unit : glm.dot _defaultUp _defaultUp = 1.
Proof. unfold glm.dot, _defaultUp; simpl; ring. Qed.



(** With the limit off, an orbit update keeps the distance from the
    origin: yaw and tilt are rotations.  (If the position is parallel to
    the up vector the tilt axis degenerates to the zero vector, and the
    update leaves such a position where it is.) *)
Lemma rotate_unlimited_length (c : Camera) (newMouse : vec2) :
  _upVector c = _defaultUp ->
  _limitCameraPosition c = false ->
  glm.length (_position (rotate c newMouse)) = glm.length (_position c).
Proof.
  intros Hu Hl.
  destruct (rotate_cases c newMouse) as [E | (Hne & Ht & Hb)];
    [now rewrite E |].
  rewrite (rotate_applied c newMouse Hne Ht Hb _ _ _ _
             eq_refl eq_refl eq_refl eq_refl).
  rewrite Hl, Hu.
  set (phi := orbitAngles (_oldMousePosition c) newMouse).
  set (axis := glm.cross _defaultUp (_position c)).
  destruct (Req_dec (glm.dot axis axis) 0) as [Hz | Hnz].
  - (* position parallel to the up vector *)
    apply dot_self_zero in Hz.
    assert (Hx : v3x (_position c) = 0).
    { apply (f_equal v3y) in Hz. unfold axis, glm.cross, _defaultUp in Hz.
      simpl in Hz. lra. }
    assert (Hy : v3y (_position c) = 0).
    { apply (f_equal v3x) in Hz. unfold axis, glm.cross, _defaultUp in Hz.
      simpl in Hz. lra. }
    rewrite Hz. f_equal.
    destruct (_position c) as [px py pz]; simpl in Hx, Hy; subst px py.
    unfold glm.qrot, glm.qmul, glm.angleAxis, glm.normalize, glm.scale3,
      glm.add3, glm.cross, glm.splat3, _defaultUp; simpl.
    f_equal; ring.
  - apply qrot_unit_length.
    rewrite qnorm2_qmul, !qnorm2_angleAxis, defaultUp_unit.
    rewrite (normalize_unit axis Hnz). ring.
Qed.








(** Start-up, when GLEW initialises, sets the default pose. *)
Lemma initializeGL_camera (assets : AssetLoader) (r : Renderer) (gl : GL) :
  glewInit assets = true ->
  camera (fst (initializeGL assets r gl)) = initializeCamera (camera r).
Proof.
  intros H. unfold initializeGL. rewrite H.
  unfold bind, call, ret; simpl.
  destruct (initializeGround assets (ground r) _) as [g gl1].
  destruct (initializeSkybox assets (skybox r) gl1) as [s gl2].
  reflexivity.
Qed.




(** * Further properties of the renderer and the GUI layer *)

(** ** Pointer scaling and orbit angles *)

(** X1.  On a widget at least two pixels high, a pixel inside it (column
    0 to width, row 0 to height - 1) is scaled to a horizontal component in
    [-1, 1] and a vertical component in [0, 2]: the top row is 0, the
    bottom row 2. *)
Theorem scaledMouse_range (size mousePos : ivec2) :
  (0 < iv2x size)%Z -> (1 < iv2y size)%Z ->
  (0 <= iv2x mousePos <= iv2x size)%Z ->
  (0 <= iv2y mousePos <= iv2y size - 1)%Z ->
  -1 <= v2x (scaledMouse size mousePos) <= 1
  /\ 0 <= v2y (scaledMouse size mousePos) <= 2
  /\ (iv2y mousePos = 0%Z -> v2y (scaledMouse size mousePos) = 0)
  /\ (iv2y mousePos = (iv2y size - 1)%Z ->
      v2y (scaledMouse size mousePos) = 2).
Proof.
  intros Hw Hh Hx [Hy0 Hy1].
  split; [now apply scaledMouse_x_in_range |].
  unfold scaledMouse; simpl.
  apply IZR_lt in Hh. apply IZR_le in Hy0, Hy1.
  rewrite minus_IZR in Hy1.
  set (h := IZR (iv2y size)) in *. set (y := IZR (iv2y mousePos)) in *.
  assert (Hd : 0 < h - 1) by lra.
  split; [split |]; [| | split].
  - apply Rmult_le_pos; [lra | left; now apply Rinv_0_lt_compat].
  - apply Rmult_le_reg_r with (h - 1); [exact Hd |].
    replace (y * 2 / (h - 1) * (h - 1)) with (y * 2) by (field; lra). lra.
  - intros E. unfold y. rewrite E. unfold Rdiv. ring.
  - intros E. unfold y. rewrite E, minus_IZR. fold h. field. lra.
Qed.

Lemma scaledMouse_range_witness :
  -1 <= v2x (scaledMouse (mkivec2 800 600) (mkivec2 200 150)) <= 1
  /\ 0 <= v2y (scaledMouse (mkivec2 800 600) (mkivec2 200 150)) <= 2.
Proof.
  destruct (scaledMouse_range (mkivec2 800 600) (mkivec2 200 150))
    as (Hx & Hy & _); simpl; try lia.
  split; assumption.
Defined.

Lemma glm_min_ge (a b : R) : b <= a -> glm.min a b = b.
Proof. intros H; unfold glm.min; destruct (Rlt_dec b a); lra. Qed.

Lemma glm_max_le (a b : R) : a <= b -> glm.max a b = b.
Proof. intros H; unfold glm.max; destruct (Rlt_dec a b); lra. Qed.

(** X2.  Whatever the two pointer positions, both orbit angles lie in
    [-PI, PI], and a drag component of at least 1/60 against the pointer
    direction saturates at the value [PI]. *)
Theorem orbitAngles_bounded (oldMouse newMouse : vec2) :
  let phi := orbitAngles oldMouse newMouse in
  (- PI <= v2x phi <= PI)
  /\ (- PI <= v2y phi <= PI)
  /\ (1/60 <= v2x oldMouse - v2x newMouse -> v2x phi = PI)
  /\ (v2x oldMouse - v2x newMouse <= - (1/60) -> v2x phi = - PI).
Proof.
  cbv zeta. unfold orbitAngles, glm.scale2, glm.asin2, glm.max2, glm.min2,
    glm.sub2, glm.splat2, _rotationalFactor; simpl.
  split; [| split; [| split]].
  - match goal with |- context [asin ?a] => pose proof (asin_bound a) end.
    lra.
  - match goal with |- _ <= asin ?a * 2 <= _ => pose proof (asin_bound a) end.
    lra.
  - intros H. rewrite glm_min_ge by lra.
    rewrite glm_max_l by lra. rewrite asin_1. field.
  - intros H. rewrite glm_min_l by lra.
    rewrite glm_max_le by lra. rewrite asin_minus_1. field.
Qed.

Lemma orbitAngles_bounded_witness :
  v2x (orbitAngles (mkvec2 (1/2) 0) (mkvec2 0 0)) = PI.
Proof.
  apply (orbitAngles_bounded (mkvec2 (1/2) 0) (mkvec2 0 0)). simpl. lra.
Defined.

(** ** Orbit geometry *)

Lemma orbitAngles_horizontal (oldMouse newMouse : vec2) :
  v2y newMouse = v2y oldMouse -> v2y (orbitAngles oldMouse newMouse) = 0.
Proof.
  intros E. unfold orbitAngles, glm.scale2, glm.asin2, glm.max2, glm.min2,
    glm.sub2, glm.splat2; simpl.
  rewrite E. replace ((v2y oldMouse - v2y oldMouse) * _rotationalFactor)
    with 0 by ring.
  rewrite (glm_min_l 0 1) by lra. rewrite (glm_max_l 0 (-1)) by lra.
  rewrite asin_0. ring.
Qed.

(** A yaw about the vertical keeps the height of every vector. *)
Lemma yaw_keeps_height (a : R) (v : vec3) :
  v3z (glm.qrot (glm.angleAxis a _defaultUp) v) = v3z v.
Proof.
  unfold glm.qrot, glm.angleAxis, glm.add3, glm.scale3, glm.cross,
    _defaultUp; simpl. ring.
Qed.

Lemma yaw_unit (a : R) : qnorm2 (glm.angleAxis a _defaultUp) = 1.
Proof. rewrite qnorm2_angleAxis, defaultUp_unit. ring. Qed.

(** X3.  A drag with no vertical pointer movement is a pure yaw: with the
    up vector vertical, and either the limit off or the camera at or above
    the minimum height, it changes neither the height of the camera, nor
    its distance from the origin, nor its tilt. *)
Theorem horizontal_drag_keeps_height (c : Camera) (newMouse : vec2) :
  _upVector c = _defaultUp ->
  v2y newMouse = v2y (_oldMousePosition c) ->
  _limitCameraPosition c = false \/ _minimumHeight <= v3z (_position c) ->
  let c' := rotate c newMouse in
  v3z (_position c') = v3z (_position c)
  /\ glm.length (_position c') = glm.length (_position c)
  /\ currentTilt c' = currentTilt c.
Proof.
  intros Hu Hy Hsafe. cbv zeta.
  assert (Hphi : v2y (orbitAngles (_oldMousePosition c) newMouse) = 0)
    by now apply orbitAngles_horizontal.
  destruct (rotate_cases c newMouse) as [E | (Hne & Ht & Hb)].
  { rewrite E. repeat split; reflexivity. }
  set (a := v2x (orbitAngles (_oldMousePosition c) newMouse)).
  assert (Hpos : _position (rotate c newMouse)
                 = glm.qrot (glm.angleAxis a _defaultUp) (_position c)).
  { rewrite (rotate_applied c newMouse Hne Ht Hb _ _ _ _
               eq_refl eq_refl eq_refl eq_refl).
    rewrite Hphi, angleAxis_zero, qmul_one_l, Hu. fold a.
    destruct (_limitCameraPosition c); [| reflexivity].
    destruct Hsafe as [Hs | Hs]; [discriminate |].
    unfold set_z. rewrite yaw_keeps_height.
    rewrite glm_max_l by exact Hs.
    apply vec3_ext; simpl; try reflexivity.
    symmetry. apply yaw_keeps_height. }
  assert (Hz : v3z (_position (rotate c newMouse)) = v3z (_position c))
    by (rewrite Hpos; apply yaw_keeps_height).
  assert (Hl : glm.length (_position (rotate c newMouse))
               = glm.length (_position c))
    by (rewrite Hpos; apply qrot_unit_length, yaw_unit).
  split; [exact Hz |]. split; [exact Hl |].
  rewrite !currentTilt_standard; [now rewrite Hz, Hl | exact Hu |].
  destruct (rotate_keeps_frame c newMouse) as (_ & -> & _). exact Hu.
Qed.

Lemma horizontal_drag_keeps_height_witness :
  v3z (_position (rotate (startCamera true (mkvec2 0 0)) (mkvec2 (1/100) 0)))
  = 1.
Proof.
  apply (horizontal_drag_keeps_height (startCamera true (mkvec2 0 0))
           (mkvec2 (1/100) 0) eq_refl eq_refl).
  right. simpl. unfold _minimumHeight. lra.
Defined.

(** X4.  With the limit off and the standard frame, an orbit update never
    changes the distance of the camera from the focus, whatever the
    drag. *)
Theorem orbit_keeps_distance (c : Camera) (newMouse : vec2) :
  standardFrame c ->
  _limitCameraPosition c = false ->
  distanceFromFocus (rotate c newMouse) = distanceFromFocus c.
Proof.
  intros [Hf Hu] Hl. unfold distanceFromFocus.
  destruct (rotate_keeps_frame c newMouse) as (-> & _).
  rewrite Hf, !sub3_origin. now apply rotate_unlimited_length.
Qed.

Lemma orbit_keeps_distance_witness :
  distanceFromFocus
    (rotate (startCamera false (mkvec2 0 0)) (mkvec2 (1/100) (1/200)))
  = distanceFromFocus (startCamera false (mkvec2 0 0)).
Proof.
  apply (orbit_keeps_distance (startCamera false (mkvec2 0 0))
           (mkvec2 (1/100) (1/200)) (conj eq_refl eq_refl) eq_refl).
Defined.

(** ** Invariants of the input handlers *)

Lemma zoom_limited_height_or_same (c : Camera) (newMouse : vec2) :
  _limitCameraPosition c = true ->
  zoom c newMouse = c
  \/ _minimumHeight <= v3z (_position (zoom c newMouse)).
Proof.
  intros Hl. destruct (glm.eq2 newMouse (_oldMousePosition c)) eqn:E.
  - left. unfold zoom. now rewrite E.
  - right. now apply zoom_limited_height.
Qed.

Lemma handle_limited_height (c : Camera) (i : Input) :
  _limitCameraPosition c = true -> i <> SetLimit false ->
  _minimumHeight <= v3z (_position c) ->
  _limitCameraPosition (handle c i) = true
  /\ _minimumHeight <= v3z (_position (handle c i)).
Proof.
  intros Hl Hi Hz. destruct i as [m | m b | l]; simpl.
  - split; assumption.
  - unfold dragMove; simpl. destruct b; simpl; try (split; assumption).
    + destruct (rotate_keeps_frame c m) as (_ & _ & -> & _).
      split; [exact Hl |].
      destruct (rotate_limited_height c m Hl) as [E | H];
        [now rewrite E | exact H].
    + destruct (zoom_keeps_frame c m) as (_ & _ & -> & _).
      split; [exact Hl |].
      destruct (zoom_limited_height_or_same c m Hl) as [E | H];
        [now rewrite E | exact H].
  - destruct l; [split; [reflexivity | exact Hz] | congruence].
Qed.

(** X5.  While the limit stays on, the camera never goes below the
    minimum height: from a camera at or above it, every run of presses,
    orbit drags, zoom drags and limit toggles that never switches the limit
    off ends at or above it. *)
Theorem limited_camera_stays_above_ground (inputs : list Input) :
  forall c,
    _limitCameraPosition c = true ->
    Forall (fun i => i <> SetLimit false) inputs ->
    _minimumHeight <= v3z (_position c) ->
    _limitCameraPosition (handleAll c inputs) = true
    /\ _minimumHeight <= v3z (_position (handleAll c inputs)).
Proof.
  induction inputs as [| i rest IH]; intros c Hl Hall Hz; simpl.
  - split; assumption.
  - inversion Hall as [| ? ? Hi Hrest]; subst.
    destruct (handle_limited_height c i Hl Hi Hz) as [Hl' Hz'].
    now apply IH.
Qed.

Lemma limited_camera_stays_above_ground_witness :
  _minimumHeight
  <= v3z (_position
            (handleAll (startCamera true (mkvec2 0 0))
               [DragStart (mkvec2 0 0);
                DragMove (mkvec2 0 (-1/2)) LeftButton;
                DragMove (mkvec2 0 1) RightButton])).
Proof.
  apply (limited_camera_stays_above_ground
           [DragStart (mkvec2 0 0); DragMove (mkvec2 0 (-1/2)) LeftButton;
            DragMove (mkvec2 0 1) RightButton]
           (startCamera true (mkvec2 0 0)) eq_refl).
  - repeat constructor; discriminate.
  - simpl. unfold _minimumHeight. lra.
Defined.

Lemma handle_matrixConsistent (c : Camera) (i : Input) :
  matrixConsistent c -> matrixConsistent (handle c i).
Proof.
  intros H. destruct i as [m | m b | l]; simpl; try exact H.
  unfold dragMove. destruct b; try exact H.
  - unfold matrixConsistent; simpl.
    destruct (rotate_cases c m) as [E | (Hne & Ht & Hb)];
      [rewrite E; exact H |].
    rewrite <- guard_closeToTop in Ht. rewrite <- guard_closeToBottom in Hb.
    apply not_true_is_false in Ht, Hb.
    unfold rotate. rewrite Hne, Ht, Hb. reflexivity.
  - unfold matrixConsistent; simpl.
    unfold zoom. destruct (glm.eq2 m (_oldMousePosition c));
      [exact H | reflexivity].
Qed.

(** X6.  The cached view-projection matrix always belongs to the current
    pose: it does right after start-up, and if it does before a run of
    presses, drags of any button and limit toggles, it does after the run,
    whether the drags were applied, refused or stationary. *)
Theorem matrix_follows_pose (c : Camera) (inputs : list Input) :
  (forall assets r gl,
      glewInit assets = true ->
      matrixConsistent (camera (fst (initializeGL assets r gl))))
  /\ (matrixConsistent c -> matrixConsistent (handleAll c inputs)).
Proof.
  split.
  - intros assets r gl H. rewrite initializeGL_camera by exact H.
    reflexivity.
  - revert c. induction inputs as [| i rest IH]; intros c H; simpl;
      [exact H |].
    apply IH. now apply handle_matrixConsistent.
Qed.

Lemma matrix_follows_pose_witness :
  matrixConsistent
    (handleAll (startCamera true (mkvec2 0 0))
       [DragMove (mkvec2 (1/100) 0) LeftButton; SetLimit false;
        DragMove (mkvec2 (1/100) (1/2)) RightButton]).
Proof.
  apply (matrix_follows_pose (startCamera true (mkvec2 0 0))
           [DragMove (mkvec2 (1/100) 0) LeftButton; SetLimit false;
            DragMove (mkvec2 (1/100) (1/2)) RightButton]).
  reflexivity.
Defined.

(** X7.  A move event at the pixel of the previous move event does
    nothing, whatever buttons either event carries: the camera after the
    second event is the camera after the first. *)
Theorem repeated_move_event_is_noop (c : Camera) (pos : ivec2)
        (b1 b2 : MouseButtons) :
  mouseMoveEvent (mouseMoveEvent c pos b1) pos b2 = mouseMoveEvent c pos b1.
Proof.
  unfold mouseMoveEvent.
  assert (Hsize : canvasSize (dragMove c (scaledMouse (canvasSize c) pos) b1)
                  = canvasSize c).
  { unfold dragMove; simpl. destruct b1; try reflexivity.
    - apply rotate_keeps_frame.
    - apply zoom_keeps_frame. }
  rewrite Hsize.
  set (m := scaledMouse (canvasSize c) pos).
  set (c1 := dragMove c m b1).
  assert (Hold : _oldMousePosition c1 = m) by reflexivity.
  unfold dragMove at 1.
  assert (Hsame : match b2 with
                  | LeftButton => rotate c1 m
                  | RightButton => zoom c1 m
                  | _ => c1
                  end = c1).
  { destruct b2; try reflexivity.
    - rewrite <- Hold. apply rotate_stationary.
    - rewrite <- Hold. apply zoom_stationary. }
  rewrite Hsame. reflexivity.
Qed.

(** ** Zoom inside the limits *)

Lemma sqrt_le_sq (a b : R) : 0 <= a -> 0 <= b -> a <= b * b -> sqrt a <= b.
Proof.
  intros Ha Hb H. rewrite <- (sqrt_square b Hb). apply sqrt_le_1; nra.
Qed.

Lemma dot_length (v : vec3) : glm.dot v v = glm.length v * glm.length v.
Proof. unfold glm.length. now rewrite sqrt_sqrt by apply dot_self_nonneg. Qed.

Lemma dot_set_z (z : R) (p : vec3) :
  glm.dot (set_z z p) (set_z z p) = glm.dot p p - v3z p * v3z p + z * z.
Proof. unfold glm.dot, set_z; simpl. ring. Qed.

Lemma length_scaled_normalize (k : R) (p : vec3) :
  0 <= k -> glm.dot p p <> 0 ->
  glm.length (glm.scale3 k (glm.normalize p)) = k.
Proof.
  intros Hk Hp. rewrite length_scale3, Rabs_right by lra.
  unfold glm.length. rewrite (normalize_unit p Hp), sqrt_1. ring.
Qed.

(** The last step of a limited zoom, the height clamp, on a position that
    is far enough from the origin and not below the ground plane. *)
Lemma height_clamp_bounds (p2 : vec3) :
  _minimumDistance <= glm.length p2 ->
  0 <= v3z p2 ->
  (_minimumHeight <= v3z p2 -> glm.length p2 <= _maximumDistance) ->
  (v3z p2 < _minimumHeight ->
   glm.dot p2 p2 - v3z p2 * v3z p2 + _minimumHeight * _minimumHeight
   <= _maximumDistance * _maximumDistance) ->
  _minimumDistance
  <= glm.length (set_z (glm.max (v3z p2) _minimumHeight) p2)
  <= _maximumDistance.
Proof.
  intros Hlo Hz0 Hhi Hclamp.
  destruct (Rlt_dec (v3z p2) _minimumHeight) as [Hlt | Hge].
  - rewrite glm_max_r by exact Hlt. specialize (Hclamp Hlt).
    unfold glm.length at 1 2. rewrite dot_set_z.
    pose proof (dot_length p2) as Hd. pose proof (length_nonneg p2) as Hn.
    unfold _minimumDistance, _maximumDistance, _skyboxSize, _minimumHeight
      in *.
    split.
    + apply sqrt_ge_sq; nra.
    + apply sqrt_le_sq; nra.
  - apply Rnot_lt_le in Hge. rewrite glm_max_l by exact Hge.
    unfold set_z. rewrite vec3_eta. split; [exact Hlo | now apply Hhi].
Qed.

(** X8.  With the limit on and the focus at the origin, a zoom drag whose
    vertical displacement is above -1 (so that the scale factor is
    positive) keeps a camera that is inside the limits inside them: the
    distance from the focus stays in [_minimumDistance, _maximumDistance]
    and the height stays at or above [_minimumHeight]. *)
Theorem zoom_keeps_limits (c : Camera) (newMouse : vec2) :
  _focus c = _defaultFocus ->
  _limitCameraPosition c = true ->
  _minimumHeight <= v3z (_position c) ->
  distanceWithinLimits c ->
  -1 < v2y newMouse - v2y (_oldMousePosition c) ->
  distanceWithinLimits (zoom c newMouse)
  /\ _minimumHeight <= v3z (_position (zoom c newMouse)).
Proof.
  intros Hf Hl Hz Hd Ht.
  destruct (glm.eq2 newMouse (_oldMousePosition c)) eqn:Hne.
  { apply eq2_true in Hne. rewrite Hne, zoom_stationary. split; assumption. }
  split; [| now apply zoom_limited_height].
  unfold distanceWithinLimits, distanceFromFocus in *.
  destruct (zoom_keeps_frame c newMouse) as (-> & _).
  rewrite Hf, sub3_origin in *.
  set (p := _position c) in *.
  set (s := 1 + (v2y newMouse - v2y (_oldMousePosition c))).
  assert (Hs : 0 < s) by (unfold s; lra).
  rewrite (zoom_limited_position c newMouse Hne Hl _ _ _ _
             eq_refl eq_refl eq_refl eq_refl).
  rewrite Hf, sub3_origin. fold p. fold s.
  pose proof (dot_length p) as Hdl. pose proof (length_nonneg p) as Hn.
  set (L := glm.length p) in *.
  assert (HminD : _minimumDistance = 25/100) by reflexivity.
  assert (HmaxD : _maximumDistance = 49/10)
    by (unfold _maximumDistance, _skyboxSize; field).
  assert (HminH : _minimumHeight = 1/10) by reflexivity.
  destruct Hd as [Hd1 Hd2].
  assert (HL : 0 < L) by lra.
  assert (Hp0 : glm.dot p p <> 0) by nra.
  assert (Hs0 : glm.length (glm.scale3 s p) = s * L)
    by (rewrite length_scale3, Rabs_right by lra; reflexivity).
  assert (Hq : 1 / sqrt (glm.dot p p) * L = 1)
    by (unfold L, glm.length; field; fold (glm.length p); fold L; lra).
  set (q := 1 / sqrt (glm.dot p p)) in *.
  assert (Hq0 : 0 < q) by nra.
  assert (Hzn : forall k, v3z (glm.scale3 k (glm.normalize p)) = k * (q * v3z p))
    by reflexivity.
  assert (Hxy : v3z p * v3z p <= glm.dot p p) by (unfold glm.dot; nra).
  rewrite Hs0.
  destruct (Rlt_dec _maximumDistance (s * L)) as [Hbig | Hnbig].
  - (* pulled back to the maximum distance *)
    rewrite Rgt_b_true by exact Hbig.
    rewrite length_scaled_normalize by (try exact Hp0; lra).
    rewrite Rlt_b_false by lra.
    assert (Hz2 : _minimumHeight <= _maximumDistance * (q * v3z p)).
    { rewrite HminH, HmaxD in *. assert (1 <= 49/10 * q) by nra. nra. }
    apply height_clamp_bounds.
    + rewrite length_scaled_normalize by (try exact Hp0; lra). lra.
    + rewrite Hzn. lra.
    + intros _. rewrite length_scaled_normalize by (try exact Hp0; lra). lra.
    + rewrite Hzn. lra.
  - apply Rnot_lt_le in Hnbig. rewrite Rgt_b_false by exact Hnbig.
    rewrite Hs0.
    destruct (Rlt_dec (s * L) _minimumDistance) as [Hsmall | Hnsmall].
    + (* pushed out to the minimum distance *)
      rewrite Rlt_b_true by exact Hsmall.
      assert (Hlen : glm.length (glm.scale3 _minimumDistance (glm.normalize p))
                     = _minimumDistance)
        by (apply length_scaled_normalize; [lra | exact Hp0]).
      apply height_clamp_bounds.
      * rewrite Hlen. lra.
      * rewrite Hzn. rewrite HminD, HminH in *. nra.
      * intros _. rewrite Hlen. lra.
      * intros _. rewrite dot_length, Hlen, Hzn.
        rewrite HminD, HminH, HmaxD in *. nra.
    + (* scaled only *)
      apply Rnot_lt_le in Hnsmall. rewrite Rlt_b_false by exact Hnsmall.
      assert (Hdot : glm.dot (glm.scale3 s p) (glm.scale3 s p)
                     = s * s * glm.dot p p)
        by (unfold glm.dot, glm.scale3; simpl; ring).
      apply height_clamp_bounds.
      * rewrite Hs0. exact Hnsmall.
      * simpl. rewrite HminH in *. nra.
      * intros _. rewrite Hs0. exact Hnbig.
      * simpl. intros Hlow. rewrite Hdot.
        rewrite HminH, HmaxD in *.
        assert (Hs1 : s < 1) by nra.
        assert (Hss : s * s <= 1) by nra.
        assert (H1 : s * s * (glm.dot p p - v3z p * v3z p)
                     <= glm.dot p p - v3z p * v3z p) by nra.
        nra.
Qed.

Lemma zoom_keeps_limits_witness :
  let c := startCamera true (mkvec2 0 0) in
  distanceWithinLimits (zoom c (mkvec2 0 (-1/2)))
  /\ _minimumHeight <= v3z (_position (zoom c (mkvec2 0 (-1/2)))).
Proof.
  intros c.
  apply (zoom_keeps_limits c (mkvec2 0 (-1/2)) eq_refl eq_refl).
  - simpl. unfold _minimumHeight. lra.
  - unfold distanceWithinLimits, distanceFromFocus. simpl.
    rewrite sub3_origin. unfold glm.length, glm.dot; simpl.
    unfold _minimumDistance, _maximumDistance, _skyboxSize. split.
    + apply sqrt_ge_sq; lra.
    + apply sqrt_le_sq; lra.
  - simpl. lra.
Defined.

(** ** Readiness after initialisation *)

Lemma initializeGround_fields (assets : AssetLoader) (g : GroundObjects)
      (gl : GL) :
  let g' := fst (initializeGround assets g gl) in
  _groundVBO g' <> 0%Z
  /\ _groundTexture g' = loadTexture assets "${ASSETS}/dirt.jpg"
  /\ _groundTextureNormal g' = loadTexture assets "${ASSETS}/dirt_n.jpg"
  /\ _groundProgram g' = Some (mkProgramObject "Ground")
  /\ _groundProgramReady g'
     = buildProgram assets (mkProgramObject "Ground") (_groundProgramReady g)
  /\ _renderGround g' = _renderGround g.
Proof.
  cbv zeta.
  unfold initializeGround, generateGroundBuffer, bind, call, ret, genName.
  destruct (Z.eqb_spec (_groundVBO g) 0) as [Ev | Ev]; simpl;
    repeat split; try reflexivity; try discriminate; assumption.
Qed.

(** X9.  After [initializeGround] on a ground subsystem whose ready flag
    was still false, the ground is ready exactly when both ground textures
    loaded and the ground program compiled and linked. *)
Theorem ground_ready_after_initialize (assets : AssetLoader)
        (g : GroundObjects) (gl : GL) :
  _groundProgramReady g = false ->
  (groundIsReady (fst (initializeGround assets g gl)) = true
   <-> loadTexture assets "${ASSETS}/dirt.jpg" <> None
       /\ loadTexture assets "${ASSETS}/dirt_n.jpg" <> None
       /\ compileShaderObjects assets (mkProgramObject "Ground") = true
       /\ linkProgramObject assets (mkProgramObject "Ground") = true).
Proof.
  intros Hr. rewrite groundIsReady_iff.
  destruct (initializeGround_fields assets g gl)
    as (Hv & -> & -> & -> & -> & _).
  unfold buildProgram. rewrite Hr.
  destruct (compileShaderObjects assets (mkProgramObject "Ground"));
    destruct (linkProgramObject assets (mkProgramObject "Ground"));
    intuition congruence.
Qed.

Lemma ground_ready_after_initialize_witness :
  groundIsReady
    (fst (initializeGround assetsWithoutParticleSprite
            (mkGround true 0 None None None false) freshGL)) = true.
Proof.
  apply (ground_ready_after_initialize assetsWithoutParticleSprite
           (mkGround true 0 None None None false) freshGL eq_refl).
  repeat split; try discriminate; reflexivity.
Defined.

Lemma generateSkyboxBuffer_fields (s : SkyboxObjects) (gl : GL) :
  let s' := fst (generateSkyboxBuffer s gl) in
  _skyboxVBO s' <> 0%Z /\ _skyboxIBO s' <> 0%Z
  /\ _skyboxProgramReady s' = _skyboxProgramReady s
  /\ _renderSkybox s' = _renderSkybox s.
Proof.
  cbv zeta. unfold generateSkyboxBuffer, bind, call, ret, genName.
  destruct (Z.eqb_spec (_skyboxVBO s) 0) as [Ev | Ev];
    destruct (Z.eqb_spec (_skyboxIBO s) 0) as [Ei | Ei];
    cbv beta iota zeta; unfold fst, snd;
    cbv [_skyboxVBO _skyboxIBO _skyboxProgramReady _renderSkybox];
    repeat split; try discriminate; assumption.
Qed.

Lemma initializeSkybox_fields (assets : AssetLoader) (s : SkyboxObjects)
      (gl : GL) :
  let s' := fst (initializeSkybox assets s gl) in
  _skyboxVBO s' <> 0%Z /\ _skyboxIBO s' <> 0%Z /\ _skyboxTexture s' <> 0%Z
  /\ _skyboxProgram s' = Some (mkProgramObject "Skybox")
  /\ _skyboxProgramReady s'
     = buildProgram assets (mkProgramObject "Skybox") (_skyboxProgramReady s)
  /\ _renderSkybox s' = _renderSkybox s.
Proof.
  cbv zeta. unfold initializeSkybox, bind.
  pose proof (generateSkyboxBuffer_fields s gl) as H. cbv zeta in H.
  destruct (generateSkyboxBuffer s gl) as [s1 gl1].
  unfold fst in H. destruct H as (Hv & Hi & Hr & Hrs).
  unfold call, genName, ret. cbv beta iota zeta.
  match goal with
  | |- context [uploadCubeMap assets ?g] =>
      destruct (uploadCubeMap assets g) as [u gl2]
  end.
  destruct s1 as [rs vbo ibo n tex pr ready].
  cbv [fst _skyboxVBO _skyboxIBO _skyboxTexture _skyboxProgram
       _skyboxProgramReady _renderSkybox] in *.
  rewrite Hr.
  repeat split; try assumption; discriminate.
Qed.

(** X10.  After [initializeSkybox] on a skybox subsystem whose ready flag
    was still false, the skybox is ready exactly when the skybox program
    compiled and linked: whether the six cube-map faces loaded plays no
    part. *)
Theorem skybox_ready_after_initialize (assets : AssetLoader)
        (s : SkyboxObjects) (gl : GL) :
  _skyboxProgramReady s = false ->
  (skyboxIsReady (fst (initializeSkybox assets s gl)) = true
   <-> compileShaderObjects assets (mkProgramObject "Skybox") = true
       /\ linkProgramObject assets (mkProgramObject "Skybox") = true).
Proof.
  intros Hr. rewrite skyboxIsReady_iff.
  destruct (initializeSkybox_fields assets s gl)
    as (Hv & Hi & Ht & -> & -> & _).
  unfold buildProgram. rewrite Hr.
  destruct (compileShaderObjects assets (mkProgramObject "Skybox"));
    destruct (linkProgramObject assets (mkProgramObject "Skybox"));
    intuition congruence.
Qed.

Lemma skybox_ready_after_initialize_witness :
  skyboxIsReady
    (fst (initializeSkybox
            (mkAssetLoader true (fun _ => None) (fun _ => true)
                           (fun _ => true))
            (mkSkybox true 0 0 0 0 None false) freshGL)) = true.
Proof.
  apply (skybox_ready_after_initialize
           (mkAssetLoader true (fun _ => None) (fun _ => true)
                          (fun _ => true))
           (mkSkybox true 0 0 0 0 None false) freshGL eq_refl).
  split; reflexivity.
Defined.

(** X11.  A particle subsystem without a buffer and with its ready flag
    still false is not ready after [initializeParticle], and stays so
    through every [updateData] on a missing or empty source; after an
    [updateData] on a non-empty source it is ready exactly when the
    particle program compiled and linked. *)
Theorem particles_ready_after_upload (assets : AssetLoader)
        (p : ParticleObjects) (gl : GL) :
  _particleVBO p = 0%Z ->
  _particleProgramReady p = false ->
  let p1 := initializeParticle assets p in
  particlesAreReady p1 = false
  /\ particlesAreReady (fst (updateData (setData p1 None) gl)) = false
  /\ particlesAreReady (fst (updateData (setData p1 (Some [])) gl)) = false
  /\ (forall v data,
        particlesAreReady
          (fst (updateData (setData p1 (Some (v :: data))) gl)) = true
        <-> compileShaderObjects assets (mkProgramObject "Particle") = true
            /\ linkProgramObject assets (mkProgramObject "Particle") = true).
Proof.
  intros Hv Hr. cbv zeta.
  assert (H0 : forall q, _particleVBO q = 0%Z -> particlesAreReady q = false)
    by (intros q Hq; unfold particlesAreReady, nonzero; now rewrite Hq).
  split; [apply H0; exact Hv |].
  split; [apply H0; exact Hv |].
  split; [apply H0; exact Hv |].
  intros v data. rewrite particlesAreReady_iff.
  assert (Hsz : (size (v :: data) =? 0)%Z = false).
  { apply Z.eqb_neq. unfold size. simpl List.length. lia. }
  unfold updateData, setData, initializeParticle.
  cbn [_particleData _particleVBO]. rewrite Hsz, Hv.
  unfold bind, call, ret, genName.
  cbn [fst snd Z.eqb _particleVBO _particleProgram _particleProgramReady
       set_numberOfParticles set_particleVBO].
  unfold buildProgram. rewrite Hr.
  destruct (compileShaderObjects assets (mkProgramObject "Particle"));
    destruct (linkProgramObject assets (mkProgramObject "Particle"));
    intuition congruence.
Qed.

Lemma particles_ready_after_upload_witness :
  particlesAreReady
    (initializeParticle assetsComplete (mkParticle None 0 None None false 0))
  = false.
Proof.
  apply (particles_ready_after_upload assetsComplete
           (mkParticle None 0 None None false 0) freshGL eq_refl eq_refl).
Defined.

(** ** Buffer names *)

(** X12.  A buffer that exists is reused: with non-zero names already in
    place, [generateGroundBuffer], [generateSkyboxBuffer] and a non-empty
    [updateData] keep those names, take no new name from the context and
    make no [glGenBuffers] call. *)
Theorem existing_buffers_are_reused (g : GroundObjects) (s : SkyboxObjects)
        (p : ParticleObjects) (gl : GL) :
  _groundVBO g <> 0%Z ->
  _skyboxVBO s <> 0%Z -> _skyboxIBO s <> 0%Z ->
  _particleVBO p <> 0%Z ->
  let new_calls gl' := skipn (List.length (gl_calls gl)) (gl_calls gl') in
  let no_gen calls :=
    forall n, ~ In (glGenBuffers n) calls in
  (let (g', gl') := generateGroundBuffer g gl in
   _groundVBO g' = _groundVBO g /\ gl_nextName gl' = gl_nextName gl
   /\ no_gen (new_calls gl'))
  /\ (let (s', gl') := generateSkyboxBuffer s gl in
      _skyboxVBO s' = _skyboxVBO s /\ _skyboxIBO s' = _skyboxIBO s
      /\ gl_nextName gl' = gl_nextName gl /\ no_gen (new_calls gl'))
  /\ (let (p', gl') := updateData p gl in
      _particleVBO p' = _particleVBO p /\ gl_nextName gl' = gl_nextName gl
      /\ no_gen (new_calls gl')).
Proof.
  intros Hg Hsv Hsi Hp. cbv zeta.
  apply Z.eqb_neq in Hg, Hsv, Hsi, Hp.
  assert (Hskip : forall (a b : list GLcall),
             skipn (List.length a) (a ++ b) = b).
  { intros a b. rewrite skipn_app, skipn_all, Nat.sub_diag. reflexivity. }
  split; [| split].
  - unfold generateGroundBuffer, bind, call, ret. rewrite Hg. simpl.
    repeat split. rewrite <- !app_assoc, Hskip. simpl.
    intros n H. intuition discriminate.
  - unfold generateSkyboxBuffer, bind, call, ret. rewrite Hsv, Hsi. simpl.
    repeat split. rewrite <- !app_assoc, Hskip. simpl.
    intros n H. intuition discriminate.
  - unfold updateData.
    destruct (_particleData p) as [data |].
    + destruct (size data =? 0)%Z.
      * simpl. repeat split. intros n.
        rewrite <- (app_nil_r (gl_calls gl)) at 2.
        rewrite Hskip. intros H. exact H.
      * unfold bind, call, ret. rewrite Hp. simpl.
        repeat split. rewrite <- !app_assoc, Hskip. simpl.
        intros n H. intuition discriminate.
    + simpl. repeat split. intros n.
      rewrite <- (app_nil_r (gl_calls gl)) at 2.
      rewrite Hskip. intros H. exact H.
Qed.

Lemma existing_buffers_are_reused_witness :
  _groundVBO (fst (generateGroundBuffer
                     (mkGround true 7 None None None false) freshGL)) = 7%Z.
Proof.
  destruct (existing_buffers_are_reused
              (mkGround true 7 None None None false)
              (mkSkybox true 8 9 24 0 None false)
              (mkParticle None 10 None None false 0) freshGL)
    as (H & _); try discriminate.
  destruct (generateGroundBuffer (mkGround true 7 None None None false)
                                 freshGL) as [g' gl'].
  apply H.
Defined.

(** X13.  Running [updateData] again on its own result, with the source
    unchanged, gives the same particle state and takes no new buffer
    name. *)
Theorem updateData_twice (p : ParticleObjects) (gl : GL) :
  let (p1, gl1) := updateData p gl in
  fst (updateData p1 gl1) = p1
  /\ gl_nextName (snd (updateData p1 gl1)) = gl_nextName gl1.
Proof.
  unfold updateData. destruct p as [[data |] vbo t pr ready n]; simpl.
  - destruct (size data =? 0)%Z eqn:E; simpl.
    + rewrite E. split; reflexivity.
    + destruct (Z.eqb_spec vbo 0) as [Ev | Ev];
        unfold bind, call, ret, genName; simpl; rewrite E; simpl.
      * split; reflexivity.
      * apply Z.eqb_neq in Ev. rewrite Ev. simpl. split; reflexivity.
  - split; reflexivity.
Qed.

(** ** Frames on the OpenGL context *)

Lemma guarded_safe (b : bool) (d : Draw) (gl : GL) :
  (b = true -> d gl <> None) -> exists gl', guarded b d gl = Some gl'.
Proof.
  intros H. destruct b; simpl.
  - destruct (d gl) as [gl' |] eqn:E; [now exists gl' |].
    exfalso. now apply H.
  - now exists gl.
Qed.

Lemma drawParticles_None (r : Renderer) (gl : GL) :
  drawParticles r gl = None
  <-> _particleProgram (particles r) = None
      \/ _particleTexture (particles r) = None.
Proof.
  unfold drawParticles, deref, seq. rewrite !run_call_calls.
  destruct (_particleProgram (particles r));
    destruct (_particleTexture (particles r));
    rewrite ?run_call_calls; simpl; intuition congruence.
Qed.

(** The frame up to the particle draw always completes. *)
Lemma paintGL_before_particles (r : Renderer) (gl : GL) :
  exists gl2,
    paintGL r gl
    = guarded (particlesAreReady (particles r)) (drawParticles r) gl2.
Proof.
  unfold paintGL, paintGL_on, andThen. rewrite run_call_calls.
  set (gl0 := mkGL (gl_calls gl ++ [glClear]) (gl_nextName gl)).
  destruct (guarded_safe
              (_renderGround (ground r) && groundIsReady (ground r))
              (drawGround r) gl0) as [gl1 E1].
  { intros H. apply andb_true_iff in H. now apply drawGround_safe. }
  rewrite E1.
  destruct (guarded_safe
              (_renderSkybox (skybox r) && skyboxIsReady (skybox r))
              (drawSkybox r) gl1) as [gl2 E2].
  { intros H. apply andb_true_iff in H. now apply drawSkybox_safe. }
  rewrite E2. now exists gl2.
Qed.

Lemma paintGL_None_iff (r : Renderer) (gl : GL) :
  paintGL r gl = None
  <-> particlesAreReady (particles r) = true
      /\ _particleTexture (particles r) = None.
Proof.
  destruct (paintGL_before_particles r gl) as [gl2 ->].
  destruct (particlesAreReady (particles r)) eqn:Hr; simpl.
  - rewrite drawParticles_None.
    apply particlesAreReady_iff in Hr. destruct Hr as (_ & Hp & _).
    intuition congruence.
  - intuition congruence.
Qed.

(** X14.  A frame fails on a null pointer in exactly one situation: the
    particle subsystem reports ready while its texture is null.  Ground and
    skybox are never the cause. *)
Theorem paintGL_fails_iff (r : Renderer) (gl : GL) :
  paintGL r gl = None
  <-> particlesAreReady (particles r) = true
      /\ _particleTexture (particles r) = None.
Proof. apply paintGL_None_iff. Qed.

Lemma drawGround_names (r : Renderer) (gl gl' : GL) :
  drawGround r gl = Some gl' -> gl_nextName gl' = gl_nextName gl.
Proof.
  unfold drawGround, deref, seq.
  destruct (_groundProgram (ground r)); [| discriminate].
  destruct (_groundTexture (ground r)); [| discriminate].
  destruct (_groundTextureNormal (ground r)); [| discriminate].
  rewrite !run_call_calls. intros E; injection E as <-. reflexivity.
Qed.

Lemma drawSkybox_names (r : Renderer) (gl gl' : GL) :
  drawSkybox r gl = Some gl' -> gl_nextName gl' = gl_nextName gl.
Proof.
  unfold drawSkybox, deref, seq.
  destruct (_skyboxProgram (skybox r)); [| discriminate].
  rewrite !run_call_calls. intros E; injection E as <-. reflexivity.
Qed.

Lemma drawParticles_names (r : Renderer) (gl gl' : GL) :
  drawParticles r gl = Some gl' -> gl_nextName gl' = gl_nextName gl.
Proof.
  unfold drawParticles, deref, seq. rewrite !run_call_calls.
  destruct (_particleProgram (particles r)); [| discriminate].
  destruct (_particleTexture (particles r)); [| discriminate].
  rewrite !run_call_calls. intros E; injection E as <-. reflexivity.
Qed.

Lemma guarded_names (b : bool) (d : Draw) (gl gl' : GL) :
  (forall gl gl', d gl = Some gl' -> gl_nextName gl' = gl_nextName gl) ->
  guarded b d gl = Some gl' -> gl_nextName gl' = gl_nextName gl.
Proof.
  intros Hd. destruct b; simpl; [apply Hd |].
  intros E; injection E as <-. reflexivity.
Qed.

Lemma paintGL_names (r : Renderer) (gl gl' : GL) :
  paintGL r gl = Some gl' -> gl_nextName gl' = gl_nextName gl.
Proof.
  unfold paintGL, paintGL_on, andThen. rewrite run_call_calls.
  set (gl0 := mkGL (gl_calls gl ++ [glClear]) (gl_nextName gl)).
  destruct (guarded _ (drawGround r) gl0) as [gl1 |] eqn:E1;
    [| discriminate].
  destruct (guarded _ (drawSkybox r) gl1) as [gl2 |] eqn:E2;
    [| discriminate].
  intros E3.
  apply (guarded_names _ _ _ _ (drawGround_names r)) in E1.
  apply (guarded_names _ _ _ _ (drawSkybox_names r)) in E2.
  apply (guarded_names _ _ _ _ (drawParticles_names r)) in E3.
  rewrite E3, E2, E1. reflexivity.
Qed.

Lemma paintGL_Some_calls (r : Renderer) (gl : GL) :
  particlesAreReady (particles r) = false
  \/ _particleTexture (particles r) <> None ->
  exists gl',
    paintGL r gl = Some gl'
    /\ gl_nextName gl' = gl_nextName gl
    /\ filter isDrawCall (gl_calls gl')
       = filter isDrawCall (gl_calls gl)
         ++ flat_map (drawCallOf r) (expectedDraws r).
Proof.
  intros Hok.
  destruct (paintGL r gl) as [gl' |] eqn:E.
  - exists gl'. split; [reflexivity |].
    split; [now apply (paintGL_names r) | now apply paintGL_draw_calls].
  - apply (proj1 (paintGL_None_iff r gl)) in E. destruct E as [E1 E2].
    destruct Hok; congruence.
Qed.

(** X15.  Unless the particle subsystem is ready with a null texture, a
    frame completes; it creates no OpenGL object, and the draw commands it
    adds to the call sequence are those of the ground (if shown and ready),
    the skybox (if shown and ready) and the particles (if ready), in this
    order, the particle command drawing [_numberOfParticles] points. *)
Theorem paintGL_completes (r : Renderer) (gl : GL) :
  particlesAreReady (particles r) = false
  \/ _particleTexture (particles r) <> None ->
  exists gl',
    paintGL r gl = Some gl'
    /\ gl_nextName gl' = gl_nextName gl
    /\ filter isDrawCall (gl_calls gl')
       = filter isDrawCall (gl_calls gl)
         ++ flat_map (drawCallOf r) (expectedDraws r).
Proof. apply paintGL_Some_calls. Qed.

Lemma paintGL_completes_witness :
  exists gl',
    paintGL (fst startedComplete) (snd startedComplete) = Some gl'
    /\ filter isDrawCall (gl_calls gl')
       = [glDrawArrays GL_QUADS 0 4; glDrawElements GL_QUADS 24].
Proof.
  destruct (paintGL_completes (fst startedComplete) (snd startedComplete))
    as (gl' & E & _ & Hcalls); [left; reflexivity |].
  exists gl'. split; [exact E |]. rewrite Hcalls. reflexivity.
Defined.

(** ** Slider values and the periodic tick *)

Lemma to_int_small (n : Z) : (- 2^31 <= n < 2^31)%Z -> to_int n = n.
Proof.
  intros H. unfold to_int. rewrite Z.mod_small; lia.
Qed.

(** X16.  For a slider whose range [minimum < maximum] spans less than
    2^31 and whose value lies in the range, the normalized value is in
    [0, 1]: 0 at the minimum, 1 at the maximum. *)
Theorem sliderValue_range (s : Slider) :
  (minimum s < maximum s)%Z ->
  (maximum s - minimum s < 2^31)%Z ->
  (minimum s <= value s <= maximum s)%Z ->
  0 <= sliderValue s <= 1
  /\ (value s = minimum s -> sliderValue s = 0)
  /\ (value s = maximum s -> sliderValue s = 1).
Proof.
  intros Hlt Hspan [Hlo Hhi]. unfold sliderValue.
  rewrite to_int_small by lia. rewrite minus_IZR.
  apply IZR_lt in Hlt. apply IZR_le in Hlo, Hhi.
  set (a := IZR (minimum s)) in *. set (b := IZR (maximum s)) in *.
  set (v := IZR (value s)) in *.
  assert (Hd : 0 < b - a) by lra.
  split; [split |]; [| | split].
  - apply Rmult_le_pos; [lra | left; now apply Rinv_0_lt_compat].
  - apply Rmult_le_reg_r with (b - a); [exact Hd |].
    replace ((v - a) / (b - a) * (b - a)) with (v - a) by (field; lra).
    lra.
  - intros E. unfold v. rewrite E. fold a. unfold Rdiv. ring.
  - intros E. unfold v. rewrite E. fold b. field. lra.
Qed.

Lemma sliderValue_range_witness :
  0 <= sourceValue startedGUI <= 1.
Proof.
  apply (sliderValue_range (mkSlider 0 2000 1000)); simpl; lia.
Defined.

Lemma updateData_count (p : ParticleObjects) (gl : GL) :
  let count :=
    match _particleData p with Some data => size data | None => 0%Z end in
  (count < 2^31)%Z ->
  _numberOfParticles (fst (updateData p gl)) = count
  /\ numberOfParticles (fst (updateData p gl)) = count
  /\ _particleTexture (fst (updateData p gl)) = _particleTexture p
  /\ _particleData (fst (updateData p gl)) = _particleData p.
Proof.
  cbv zeta. intros Hc. unfold numberOfParticles, updateData.
  destruct (_particleData p) as [data |] eqn:Ed.
  - assert (Hpos : (0 <= size data)%Z) by (unfold size; lia).
    destruct (Z.eqb_spec (size data) 0) as [E | E].
    + cbn [fst ret set_numberOfParticles _numberOfParticles
           _particleTexture _particleData].
      rewrite E, Ed. repeat split; reflexivity.
    + unfold bind, call, ret, genName.
      destruct (_particleVBO p =? 0)%Z;
        cbn [fst snd set_numberOfParticles set_particleVBO
             _numberOfParticles _particleTexture _particleData];
        rewrite to_GLsizei_small by lia; rewrite Ed;
        (repeat split; try reflexivity); apply Z.mod_small; lia.
  - cbn [fst ret set_numberOfParticles _numberOfParticles
         _particleTexture _particleData].
    rewrite Ed. repeat split; reflexivity.
Qed.

(** X17.  One timer tick, with a particle texture in place: the tick
    completes; the label and the renderer's particle count both show the
    number of particles the update callback left in the vector (0 if the
    renderer has no vector); the frame it draws issues the draw commands
    expected for the updated renderer, so a ready particle subsystem draws
    exactly that many points; camera, ground and skybox are untouched. *)
Theorem tick_draws_current_particles
        (updateCallback : R -> list vec3 -> list vec3) (g : GUI) (gl : GL) :
  let r := _renderer g in
  let data' :=
    option_map (updateCallback (IZR (timerInterval g) / 1000))
               (_particleData (particles r)) in
  let count := match data' with Some d => size d | None => 0%Z end in
  _particleTexture (particles r) <> None ->
  (count < 2^31)%Z ->
  exists g' gl',
    handleUpdate updateCallback g gl = Some (g', count, gl')
    /\ _numberOfParticles (particles (_renderer g')) = count
    /\ _particleData (particles (_renderer g')) = data'
    /\ camera (_renderer g') = camera r
    /\ ground (_renderer g') = ground r
    /\ skybox (_renderer g') = skybox r
    /\ filter isDrawCall (gl_calls gl')
       = filter isDrawCall (gl_calls gl)
         ++ flat_map (drawCallOf (_renderer g'))
                     (expectedDraws (_renderer g')).
Proof.
  cbv zeta. intros Htex Hcount. unfold handleUpdate.
  set (r := _renderer g) in *.
  set (p := setData (particles r)
              (option_map (updateCallback (IZR (timerInterval g) / 1000))
                          (_particleData (particles r)))).
  pose proof (updateData_count p gl) as Hu. cbv zeta in Hu.
  assert (Hdata : _particleData p
                  = option_map (updateCallback (IZR (timerInterval g) / 1000))
                               (_particleData (particles r)))
    by reflexivity.
  rewrite Hdata in Hu. specialize (Hu Hcount).
  destruct Hu as (Hn & Hlabel & Ht & Hd).
  assert (Hcalls : filter isDrawCall (gl_calls (snd (updateData p gl)))
                   = filter isDrawCall (gl_calls gl)).
  { unfold updateData. destruct (_particleData p) as [data |].
    - destruct (size data =? 0)%Z; [reflexivity |].
      unfold bind, call, ret, genName.
      destruct (_particleVBO p =? 0)%Z; cbn [snd gl_calls];
        rewrite <- !app_assoc, filter_app; cbn [filter isDrawCall app];
        apply app_nil_r.
    - reflexivity. }
  destruct (updateData p gl) as [p' gl1]. cbn [fst snd] in *.
  destruct (paintGL_Some_calls (set_particles p' r) gl1)
    as (gl2 & E & _ & Hdraw).
  { right. cbn [particles set_particles]. rewrite Ht. exact Htex. }
  rewrite E. exists (set_renderer (set_particles p' r) g), gl2.
  rewrite Hlabel. split; [reflexivity |].
  cbn [_renderer set_renderer particles camera ground skybox set_particles].
  repeat split; try assumption.
  rewrite Hdraw, Hcalls. reflexivity.
Qed.

Lemma tick_draws_current_particles_witness :
  exists g' gl',
    handleUpdate (fun _ _ => [mkvec3 0 0 1; mkvec3 0 0 2])
      (set_renderer
         (set_particles
            (setData (particles (fst startedComplete)) (Some []))
            (fst startedComplete))
         startedGUI)
      (snd startedComplete)
    = Some (g', 2%Z, gl').
Proof.
  destruct (tick_draws_current_particles
              (fun _ _ => [mkvec3 0 0 1; mkvec3 0 0 2])
              (set_renderer
                 (set_particles
                    (setData (particles (fst startedComplete)) (Some []))
                    (fst startedComplete))
                 startedGUI)
              (snd startedComplete))
    as (g' & gl' & E & _); [discriminate | reflexivity |].
  exists g', gl'. exact E.
Defined.

(** X18.  An idle tick changes nothing: when the renderer has no particle
    buffer, a count of zero and a missing or empty vector, a tick whose
    callback leaves the vector as it is (as [update] of [main.cpp] does)
    completes, returns the GUI state it started from, shows 0 on the label
    and invokes no particle draw. *)
Theorem idle_tick_is_identity (g : GUI) (gl : GL) :
  let p := particles (_renderer g) in
  _particleData p = None \/ _particleData p = Some [] ->
  _particleVBO p = 0%Z ->
  _numberOfParticles p = 0%Z ->
  exists gl',
    handleUpdate update g gl = Some (g, 0%Z, gl')
    /\ ~ In OpParticles (expectedDraws (_renderer g))
    /\ filter isDrawCall (gl_calls gl')
       = filter isDrawCall (gl_calls gl)
         ++ flat_map (drawCallOf (_renderer g)) (expectedDraws (_renderer g)).
Proof.
  cbv zeta. intros Hdata Hvbo Hn.
  destruct g as [r s1 s2 t]. destruct r as [c l gr sk p].
  cbn [_renderer particles] in *.
  destruct p as [d vbo tex pr ready n]. cbn in Hdata, Hvbo, Hn. subst vbo n.
  assert (Hnot : particlesAreReady (mkParticle d 0 tex pr ready 0) = false)
    by reflexivity.
  set (r := mkRenderer c l gr sk (mkParticle d 0 tex pr ready 0)).
  destruct (paintGL_Some_calls r gl) as (gl' & E & _ & Hdraw);
    [left; exact Hnot |].
  exists gl'. split; [| split; [| exact Hdraw]].
  - assert (Hup : forall dt,
               updateData
                 (setData (mkParticle d 0 tex pr ready 0)
                          (option_map (update dt) d)) gl
               = (mkParticle d 0 tex pr ready 0, gl))
      by (intros dt; destruct Hdata as [-> | ->]; reflexivity).
    unfold handleUpdate.
    cbn [_renderer timerInterval particles _particleData].
    rewrite Hup.
    change (set_particles (mkParticle d 0 tex pr ready 0) r) with r.
    rewrite E. reflexivity.
  - unfold expectedDraws, wanted. cbn [filter particles r].
    rewrite Hnot.
    destruct (_renderGround (ground r) && groundIsReady (ground r));
      destruct (_renderSkybox (skybox r) && skyboxIsReady (skybox r));
      cbn [In]; intuition congruence.
Qed.

Lemma idle_tick_is_identity_witness :
  exists gl',
    handleUpdate update
      (set_renderer
         (set_particles
            (setData (particles (fst startedComplete)) (Some []))
            (fst startedComplete))
         startedGUI)
      (snd startedComplete)
    = Some (set_renderer
              (set_particles
                 (setData (particles (fst startedComplete)) (Some []))
                 (fst startedComplete))
              startedGUI, 0%Z, gl').
Proof.
  destruct (idle_tick_is_identity
              (set_renderer
                 (set_particles
                    (setData (particles (fst startedComplete)) (Some []))
                    (fst startedComplete))
                 startedGUI)
              (snd startedComplete))
    as (gl' & E & _); [right; reflexivity | reflexivity | reflexivity |].
  exists gl'. exact E.
Defined.

(** ** Start-up *)

Lemma initializeGL_parts (assets : AssetLoader) (r : Renderer) (gl : GL) :
  glewInit assets = true ->
  exists gl1 gl2,
    fst (initializeGL assets r gl)
    = mkRenderer (initializeCamera (camera r)) _defaultLightPosition
        (fst (initializeGround assets (ground r) gl1))
        (fst (initializeSkybox assets (skybox r) gl2))
        (initializeParticle assets (particles r)).
Proof.
  intros H. unfold initializeGL. rewrite H. unfold bind at 1 2 3 4 5 6.
  unfold call at 1 2 3 4. cbv beta iota zeta.
  match goal with
  | |- context [initializeGround assets (ground r) ?g] =>
      exists g; destruct (initializeGround assets (ground r) g) as [g' gl1]
  end.
  exists gl1. destruct (initializeSkybox assets (skybox r) gl1) as [s' gl2].
  reflexivity.
Qed.

(** X19.  Start-up of a newly constructed renderer, when GLEW
    initialises: the ground is ready exactly when its two textures loaded
    and its program compiled and linked; the skybox exactly when its
    program compiled and linked; the particle subsystem is not ready (it
    has no buffer yet); both toggles and the camera limit are on, and the
    camera is at the default pose. *)
Theorem startup_state (assets : AssetLoader) (c : Camera) (light : vec3)
        (gl : GL) :
  glewInit assets = true ->
  let r := fst (initializeGL assets (newRenderer c light) gl) in
  (groundIsReady (ground r) = true
   <-> loadTexture assets "${ASSETS}/dirt.jpg" <> None
       /\ loadTexture assets "${ASSETS}/dirt_n.jpg" <> None
       /\ compileShaderObjects assets (mkProgramObject "Ground") = true
       /\ linkProgramObject assets (mkProgramObject "Ground") = true)
  /\ (skyboxIsReady (skybox r) = true
      <-> compileShaderObjects assets (mkProgramObject "Skybox") = true
          /\ linkProgramObject assets (mkProgramObject "Skybox") = true)
  /\ particlesAreReady (particles r) = false
  /\ _renderGround (ground r) = true
  /\ _renderSkybox (skybox r) = true
  /\ _limitCameraPosition (camera r) = true
  /\ _position (camera r) = _defaultPosition
  /\ _focus (camera r) = _defaultFocus
  /\ _upVector (camera r) = _defaultUp.
Proof.
  intros H. cbv zeta.
  destruct (initializeGL_parts assets (newRenderer c light) gl H)
    as (gl1 & gl2 & ->).
  cbn [ground skybox particles camera newRenderer].
  split; [| split; [| split; [| split; [| split]]]].
  - rewrite groundIsReady_iff.
    destruct (initializeGround_fields assets
                (mkGround true 0 None None None false) gl1)
      as (Hv & -> & -> & -> & -> & _).
    unfold buildProgram. cbn [_groundProgramReady].
    destruct (compileShaderObjects assets (mkProgramObject "Ground"));
      destruct (linkProgramObject assets (mkProgramObject "Ground"));
      intuition congruence.
  - rewrite skyboxIsReady_iff.
    destruct (initializeSkybox_fields assets
                (mkSkybox true 0 0 0 0 None false) gl2)
      as (Hv & Hi & Ht & -> & -> & _).
    unfold buildProgram. cbn [_skyboxProgramReady].
    destruct (compileShaderObjects assets (mkProgramObject "Skybox"));
      destruct (linkProgramObject assets (mkProgramObject "Skybox"));
      intuition congruence.
  - reflexivity.
  - apply (initializeGround_fields assets
             (mkGround true 0 None None None false) gl1).
  - apply (initializeSkybox_fields assets
             (mkSkybox true 0 0 0 0 None false) gl2).
  - repeat split; reflexivity.
Qed.

Lemma startup_state_witness :
  groundIsReady (ground (fst startedComplete)) = true
  /\ skyboxIsReady (skybox (fst startedComplete)) = true
  /\ particlesAreReady (particles (fst startedComplete)) = false.
Proof.
  destruct (startup_state assetsComplete (startCamera true (mkvec2 0 0))
              (mkvec3 0 0 0) freshGL eq_refl)
    as (Hg & Hs & Hp & _).
  split; [| split; [| exact Hp]].
  - apply Hg. repeat split; discriminate || reflexivity.
  - apply Hs. split; reflexivity.
Defined.

(** ** Zoom drags in a row *)

Lemma zoom_unlimited_position (c : Camera) (newMouse : vec2) :
  _limitCameraPosition c = false -> _focus c = _defaultFocus ->
  _position (zoom c newMouse)
  = glm.scale3 (1 + (v2y newMouse - v2y (_oldMousePosition c)))
               (_position c).
Proof.
  intros Hl Hf.
  destruct (glm.eq2 newMouse (_oldMousePosition c)) eqn:E.
  - apply eq2_true in E. rewrite E, zoom_stationary.
    apply vec3_ext; simpl; ring.
  - rewrite (zoom_moving c newMouse E Hl), Hf, sub3_origin. reflexivity.
Qed.

(** X20.  With the limit off and the focus at the origin, two zoom drags
    in a row scale the position by the product of their factors.  Dragging
    by [t] and straight back therefore does not restore the camera: the
    position is scaled by [1 - t * t]. *)
Theorem zoom_drags_compose (c : Camera) (m1 m2 : vec2) :
  _limitCameraPosition c = false ->
  _focus c = _defaultFocus ->
  let t1 := v2y m1 - v2y (_oldMousePosition c) in
  let t2 := v2y m2 - v2y m1 in
  let c2 := dragMove (dragMove c m1 RightButton) m2 RightButton in
  _position c2 = glm.scale3 ((1 + t1) * (1 + t2)) (_position c)
  /\ (v2y m2 = v2y (_oldMousePosition c) ->
      _position c2 = glm.scale3 (1 - t1 * t1) (_position c)).
Proof.
  intros Hl Hf. cbv zeta.
  set (c1 := dragMove c m1 RightButton).
  assert (Hl1 : _limitCameraPosition c1 = false).
  { unfold c1, dragMove; simpl.
    destruct (zoom_keeps_frame c m1) as (_ & _ & -> & _). exact Hl. }
  assert (Hf1 : _focus c1 = _defaultFocus).
  { unfold c1, dragMove; simpl.
    destruct (zoom_keeps_frame c m1) as (-> & _). exact Hf. }
  assert (Hp1 : _position c1
                = glm.scale3 (1 + (v2y m1 - v2y (_oldMousePosition c)))
                             (_position c)).
  { unfold c1, dragMove; simpl. now apply zoom_unlimited_position. }
  assert (Hp2 : _position (dragMove c1 m2 RightButton)
                = glm.scale3
                    ((1 + (v2y m1 - v2y (_oldMousePosition c)))
                     * (1 + (v2y m2 - v2y m1)))
                    (_position c)).
  { unfold dragMove at 1; simpl.
    rewrite (zoom_unlimited_position c1 m2 Hl1 Hf1), Hp1.
    change (_oldMousePosition c1) with m1.
    apply vec3_ext; simpl; ring. }
  split; [exact Hp2 |].
  intros Hback. rewrite Hp2, Hback. apply vec3_ext; simpl; ring.
Qed.

Lemma zoom_drags_compose_witness :
  _position (dragMove (dragMove (startCamera false (mkvec2 0 0))
                                (mkvec2 0 (1/2)) RightButton)
                      (mkvec2 0 0) RightButton)
  = glm.scale3 (1 - 1/2 * (1/2)) _defaultPosition.
Proof.
  destruct (zoom_drags_compose (startCamera false (mkvec2 0 0))
              (mkvec2 0 (1/2)) (mkvec2 0 0) eq_refl eq_refl) as [_ H].
  rewrite H by reflexivity. simpl.
  replace (1/2 - 0) with (1/2) by field. reflexivity.
Defined.
